(** * go-chromecast: the Cast V2 transport connection

    A shallow embedding of [cast/connection.go] and of the payload header of
    [cast/payload.go]: the global request-id counter, the correlation table
    [resultChanMap], [Start]/[connect], [Send], [SendAndWait], the background
    [receiveLoop] and [handleMessage].

    Conventions.
    - Go [int] is taken as the 64-bit two's-complement integer of the usual
      targets; [requestID += 1] wraps ([int_wrap]).
    - Go [string] and [[]byte] are [string] and [list byte]; the conversions
      are [list_byte_of_string] and [string_of_list_byte].
    - A nil-pointer dereference is the outcome [Panic].
    - The socket is an explicit value: the bytes (and read errors) still to
      come in, the bytes written so far, and how many more bytes the peer
      accepts before a write fails.
    - Goroutines are interleaved by an explicit schedule ([action], [run]);
      [SendAndWait] is also given as one function whose arguments say what
      the other goroutines do at its two interference points.
    - gogo/protobuf, encoding/json and buger/jsonparser are parameters
      ([Libs]); [Wire] instantiates them to run the model on concrete
      frames. *)

From Stdlib Require Import ZArith List String Ascii Lia Bool.
From Stdlib.Strings Require Import Byte.
From stdpp Require Import base option gmap strings list sorting pretty.
Import ListNotations.
Local Open Scope string_scope.
Local Open Scope list_scope.
Local Open Scope Z_scope.

(* ================================================================= *)
(** ** Machine integers and encoding/binary *)

Definition int_wrap (z : Z) : Z := (z + 2 ^ 63) mod 2 ^ 64 - 2 ^ 63.

(** The conversion [uint32(n)] of a non-negative [int]. *)
Definition uint32 (z : Z) : Z := z mod 2 ^ 32.

(** [byte(v)]: the low eight bits. *)
Definition byte_of_Z (z : Z) : byte :=
  match Byte.of_N (Z.to_N (z mod 256)) with
  | Some b => b
  | None => x00
  end.

Definition Z_of_byte (b : byte) : Z := Z.of_N (Byte.to_N b).

(** [binary.BigEndian.PutUint32]. *)
Definition PutUint32 (v : Z) : list byte :=
  [ byte_of_Z (Z.shiftr v 24); byte_of_Z (Z.shiftr v 16);
    byte_of_Z (Z.shiftr v 8); byte_of_Z v ].

(** [binary.BigEndian.Uint32] (of the four bytes [binary.Read] has read). *)
Definition Uint32 (b : list byte) : Z :=
  match b with
  | [b0; b1; b2; b3] =>
      Z.lor (Z.lor (Z.lor (Z_of_byte b3) (Z.shiftl (Z_of_byte b2) 8))
                   (Z.shiftl (Z_of_byte b1) 16))
            (Z.shiftl (Z_of_byte b0) 24)
  | _ => 0
  end.

(* ================================================================= *)
(** ** The TLS socket *)

(** What successive reads meet: a byte, or a read error after which the
    stream goes on (a temporary error). The end of the list is the closed
    socket: every later read fails. *)
Inductive rd : Type :=
  | RByte (b : byte)
  | RErr.

Record Socket : Type := mkSocket {
  inbound : list rd;        (* still to be read *)
  outbound : list byte;     (* written so far *)
  wquota : option Z         (* bytes accepted before a write fails; None: no failure *)
}.

(** [io.ReadFull(conn, buf)] with [len(buf) = n]: the bytes read, whether
    an error was returned, and what is left of the stream. The error is
    non-nil exactly when fewer than [n] bytes were read. *)
Fixpoint ReadFull (s : list rd) (n : Z) {struct s} : list byte * bool * list rd :=
  if n <=? 0 then ([], false, s)
  else match s with
       | [] => ([], true, [])
       | RErr :: s' => ([], true, s')
       | RByte b :: s' =>
           let '(bs, e, r) := ReadFull s' (n - 1) in (b :: bs, e, r)
       end.

(** [conn.Write(data)]: [true] when everything was written. *)
Definition sock_Write (data : list byte) (s : Socket) : bool * Socket :=
  match wquota s with
  | None => (true, mkSocket (inbound s) (outbound s ++ data) None)
  | Some q =>
      if Z.of_nat (length data) <=? q
      then (true, mkSocket (inbound s) (outbound s ++ data)
                           (Some (q - Z.of_nat (length data))))
      else (false, mkSocket (inbound s) (outbound s ++ take (Z.to_nat q) data)
                            (Some 0))
  end.

(* ================================================================= *)
(** ** Envelope and payload header *)

(** [pb.CastMessage]: every field is a pointer in the generated struct. *)
Record CastMessage : Type := mkCastMessage {
  ProtocolVersion : option Z;
  SourceId : option string;
  DestinationId : option string;
  Namespace : option string;
  PayloadType : option Z;
  PayloadUtf8 : option string;
  PayloadBinary : option (list byte)
}.

Definition CastMessage_CASTV2_1_0 : Z := 0.
Definition CastMessage_STRING : Z := 0.

(** [PayloadHeader] of payload.go. *)
Record PayloadHeader : Type := mkPayloadHeader {
  Type_ : string;
  RequestId : Z
}.

(** The [Payload] interface, with the way [json.Marshal] serialises the
    dynamic type behind it ([None]: marshalling fails). *)
Class Payload (P : Type) : Type := {
  SetRequestId : P -> Z -> P;
  json_Marshal : P -> option (list byte)
}.

(** The external libraries the connection calls: gogo/protobuf,
    encoding/json and buger/jsonparser. [None] and [false] are a non-nil
    error; [jsonparser_GetInt] returns its value beside the error flag,
    because [handleMessage] reads the value even when the error is set. *)
Class Libs : Type := {
  proto_SetDefaults : CastMessage -> CastMessage;
  proto_Marshal : CastMessage -> option (list byte);
  proto_Unmarshal : list byte -> option CastMessage;
  json_Marshal_PayloadHeader : PayloadHeader -> option (list byte);
  json_Unmarshal_PayloadHeader : list byte -> option PayloadHeader;
  jsonparser_GetString : list byte -> string -> option string;
  jsonparser_GetInt : list byte -> string -> Z * bool
}.

(** [func (p *PayloadHeader) SetRequestId(id int)]. *)
#[global]
Instance PayloadHeader_Payload `{Libs} : Payload PayloadHeader := {
  SetRequestId p id := mkPayloadHeader (Type_ p) id;
  json_Marshal := json_Marshal_PayloadHeader
}.

(* ================================================================= *)
(** ** Errors, log lines and outcomes *)

Inductive ctx_err : Type :=
  | Canceled
  | DeadlineExceeded.

Inductive error : Type :=
  | ErrConnect                 (* "unable to connect to chromecast at ..." *)
  | ErrMarshalJson             (* "unable to marshal json payload" *)
  | ErrMarshalProto            (* "unable to marshal proto payload" *)
  | ErrWriteBinary             (* "unable to write binary format" *)
  | ErrSendData                (* "unable to send data" *)
  | ErrCtx (e : ctx_err).      (* ctx.Err() *)

(** One constructor per [c.log] call site. *)
Inductive LogEntry : Type :=
  | LogSend (src dst ns : string) (payloadJson : list byte)
  | LogFailedBinaryRead
  | LogEmptyPayload
  | LogFailedReadPayload
  | LogInvalidPayload (wanted read : Z)
  | LogFailedUnmarshalProto (payload : list byte)
  | LogRecv (dst src ns payloadUtf8 : string)
  | LogFailedUnmarshalHeader
  | LogNoType (payloadUtf8 : string)
  | LogPingFailed (e : error)
  | LogNoRequestId (payloadUtf8 : string).

(** A computation that may panic (nil dereference). *)
Inductive res (A : Type) : Type :=
  | Ret (a : A)
  | Panic.
Arguments Ret {A} a.
Arguments Panic {A}.

Definition res_bind {A B : Type} (m : res A) (k : A -> res B) : res B :=
  match m with
  | Ret a => k a
  | Panic => Panic
  end.

(** [*p]: dereference of a pointer field. *)
Definition deref {A : Type} (p : option A) : res A :=
  match p with
  | Some a => Ret a
  | None => Panic
  end.

Notation "'let!' x ':=' m 'in' k" := (res_bind m (fun x => k))
  (at level 10, x pattern, m at level 200, k at level 200).

(* ================================================================= *)
(** ** Connection and package state *)

(** A channel is a reference into the heap of channel buffers. *)
Definition chan : Type := nat.

Record Connection : Type := mkConnection {
  conn : option Socket;                 (* nil until dialled *)
  resultChanMap : gmap Z chan;
  debug : bool;
  connected : bool
}.

(** The package-level variables ([requestID], [PongHeader]), the connection,
    the heap of channel buffers (each made with capacity 1; a channel with
    no entry has an empty buffer), what [c.log] printed, and the number of
    [receiveLoop] goroutines spawned. [issued] is a history variable: the
    ids passed to [SetRequestId] so far, oldest first. *)
Record World : Type := mkWorld {
  requestID : Z;
  PongHeader : PayloadHeader;
  c : Connection;
  chans : gmap chan (list CastMessage);
  next_chan : chan;
  logs : list LogEntry;
  loops : nat;
  issued : list Z
}.

Definition with_c (f : Connection -> Connection) (w : World) : World :=
  mkWorld (requestID w) (PongHeader w) (f (c w)) (chans w) (next_chan w)
          (logs w) (loops w) (issued w).

Definition set_conn (s : option Socket) (k : Connection) : Connection :=
  mkConnection s (resultChanMap k) (debug k) (connected k).

Definition set_resultChanMap (m : gmap Z chan) (k : Connection) : Connection :=
  mkConnection (conn k) m (debug k) (connected k).

Definition set_debug (b : bool) (k : Connection) : Connection :=
  mkConnection (conn k) (resultChanMap k) b (connected k).

Definition set_connected (b : bool) (k : Connection) : Connection :=
  mkConnection (conn k) (resultChanMap k) (debug k) b.

Definition set_requestID (z : Z) (w : World) : World :=
  mkWorld z (PongHeader w) (c w) (chans w) (next_chan w) (logs w) (loops w)
          (issued w).

Definition set_PongHeader (h : PayloadHeader) (w : World) : World :=
  mkWorld (requestID w) h (c w) (chans w) (next_chan w) (logs w) (loops w)
          (issued w).

Definition set_chans (h : gmap chan (list CastMessage)) (w : World) : World :=
  mkWorld (requestID w) (PongHeader w) (c w) h (next_chan w) (logs w) (loops w)
          (issued w).

Definition set_next_chan (n : chan) (w : World) : World :=
  mkWorld (requestID w) (PongHeader w) (c w) (chans w) n (logs w) (loops w)
          (issued w).

Definition add_log (e : LogEntry) (w : World) : World :=
  mkWorld (requestID w) (PongHeader w) (c w) (chans w) (next_chan w)
          (logs w ++ [e]) (loops w) (issued w).

Definition add_loop (w : World) : World :=
  mkWorld (requestID w) (PongHeader w) (c w) (chans w) (next_chan w) (logs w)
          (S (loops w)) (issued w).

Definition add_issued (id : Z) (w : World) : World :=
  mkWorld (requestID w) (PongHeader w) (c w) (chans w) (next_chan w) (logs w)
          (loops w) (issued w ++ [id]).

(** [NewConnection(debug)]. *)
Definition NewConnection (dbg : bool) : Connection :=
  mkConnection None ∅ dbg false.

(** The program state when the package is loaded and one connection made:
    [requestID] is zero, [PongHeader] is [PayloadHeader{Type: "PONG"}]. *)
Definition init_World (dbg : bool) : World :=
  mkWorld 0 (mkPayloadHeader "PONG" 0) (NewConnection dbg) ∅ O [] O [].

(** [func (c *Connection) SetDebug(debug bool)]. *)
Definition SetDebug (b : bool) (w : World) : World := with_c (set_debug b) w.

(** [func (c *Connection) log(message string, args ...interface{})]. *)
Definition log (e : LogEntry) (w : World) : World :=
  if debug (c w) then add_log e w else w.

(** [c.conn.Write(data)] on the connection's socket; a nil [c.conn] panics. *)
Definition conn_Write (data : list byte) (w : World) : res (bool * World) :=
  let! s := deref (conn (c w)) in
  let '(ok, s') := sock_Write data s in
  Ret (ok, with_c (set_conn (Some s')) w).

(* ================================================================= *)
(** ** Start and connect *)

(** [func (c *Connection) connect(addr string, port int) error]. [dial] is
    what [tls.DialWithDialer] returns: the socket, or [None] with an error
    (and then a nil connection, which is stored in [c.conn] all the same). *)
Definition connect (dial : option Socket) (w : World) : option error * World :=
  let w := with_c (set_conn dial) w in
  match dial with
  | None => (Some ErrConnect, w)
  | Some _ => (None, with_c (set_connected true) w)
  end.

(** [func (c *Connection) Start(addr string, port int) error]. The deferred
    [go c.receiveLoop()] runs when [Start] returns, whatever [connect]
    returned. *)
Definition Start (dial : option Socket) (w : World) : option error * World :=
  if negb (connected (c w)) then
    let '(err, w) := connect dial w in
    (err, add_loop w)
  else (None, w).

(* ================================================================= *)
(** ** Send *)

Section Transport.
Context {L : Libs}.

(** The envelope [Send] builds before [proto.SetDefaults]. *)
Definition envelope (sourceID destinationID namespace payloadUtf8 : string)
  : CastMessage :=
  mkCastMessage (Some CastMessage_CASTV2_1_0) (Some sourceID)
                (Some destinationID) (Some namespace)
                (Some CastMessage_STRING) (Some payloadUtf8) None.

(** The bytes of one frame: the length prefix [uint32(len(data))] in big
    endian, then the envelope. *)
Definition frame (data : list byte) : list byte :=
  PutUint32 (uint32 (Z.of_nat (length data))) ++ data.

(** [func (c *Connection) Send(payload Payload, sourceID, destinationID,
    namespace string) error]. The payload is passed by pointer: the result
    carries it as [SetRequestId] left it. *)
Definition Send {P : Type} `{Payload P} (payload : P)
    (sourceID destinationID namespace : string) (w : World)
  : res (option error * P * World) :=
  let w := set_requestID (int_wrap (requestID w + 1)) w in
  let payload := SetRequestId payload (requestID w) in
  let w := add_issued (requestID w) w in
  match json_Marshal payload with
  | None => Ret (Some ErrMarshalJson, payload, w)
  | Some payloadJson =>
      let payloadUtf8 := string_of_list_byte payloadJson in
      let message :=
        proto_SetDefaults (envelope sourceID destinationID namespace payloadUtf8) in
      match proto_Marshal message with
      | None => Ret (Some ErrMarshalProto, payload, w)
      | Some data =>
          let w := log (LogSend sourceID destinationID namespace payloadJson) w in
          let! (ok, w) := conn_Write (PutUint32 (uint32 (Z.of_nat (length data)))) w in
          if negb ok then Ret (Some ErrWriteBinary, payload, w)
          else
            let! (ok, w) := conn_Write data w in
            if negb ok then Ret (Some ErrSendData, payload, w)
            else Ret (None, payload, w)
      end
  end.

(* ================================================================= *)
(** ** The receive loop *)

(** [resultChan <- message] on a channel of capacity one: [None] when the
    buffer is full and the sender has to wait. *)
Definition chan_send (ch : chan) (m : CastMessage) (w : World) : option World :=
  match default [] (chans w !! ch) with
  | [] => Some (set_chans (<[ch := [m]]> (chans w)) w)
  | _ :: _ => None
  end.

(** How a piece of the receive loop ends. *)
Inductive flow : Type :=
  | Continue (w : World)      (* on to the next iteration *)
  | Break (w : World)         (* the loop returns *)
  | Blocked                   (* waiting to send on a full channel *)
  | Panicked.

(** [func (c *Connection) handleMessage(message *pb.CastMessage,
    headers *PayloadHeader)]: [Some w] when it returns. As at line 197, the
    local [requestID] read from the payload hides the package variable; the
    lookup goes on with its value even when [GetInt] returned an error. *)
Definition handleMessage (message : CastMessage) (headers : PayloadHeader)
    (w : World) : res (option World) :=
  let! payloadUtf8 := deref (PayloadUtf8 message) in
  match jsonparser_GetString (list_byte_of_string payloadUtf8) "type" with
  | None => Ret (Some (log (LogNoType payloadUtf8) w))
  | Some messageType =>
      if String.eqb messageType "PING" then
        let! src := deref (SourceId message) in
        let! dst := deref (DestinationId message) in
        let! ns := deref (Namespace message) in
        let! (err, pong, w) := Send (PongHeader w) src dst ns w in
        let w := set_PongHeader pong w in
        match err with
        | Some e => Ret (Some (log (LogPingFailed e) w))
        | None => Ret (Some w)
        end
      else
        let '(requestID, ok) :=
          jsonparser_GetInt (list_byte_of_string payloadUtf8) "requestId" in
        let w := if ok then w else log (LogNoRequestId payloadUtf8) w in
        match resultChanMap (c w) !! requestID with
        | Some resultChan => Ret (chan_send resultChan message w)
        | None => Ret (Some w)
        end
  end.

(** What lines 143-163 of the loop body come to: a whole payload, or the
    end of the iteration. *)
Inductive frame_read : Type :=
  | Payload_read (payload : list byte) (w : World)
  | No_frame (f : flow).

(** Lines 143-163: the length prefix, then the payload. *)
Definition read_frame (w : World) : frame_read :=
  match conn (c w) with
  | None => No_frame Panicked
  | Some s =>
      let '(b, err, rest) := ReadFull (inbound s) 4 in
      let s := mkSocket rest (outbound s) (wquota s) in
      let w := with_c (set_conn (Some s)) w in
      if err then No_frame (Break (log LogFailedBinaryRead w))
      else
        let length := Uint32 b in
        if length =? 0 then No_frame (Continue (log LogEmptyPayload w))
        else
          let '(payload, err, rest) := ReadFull (inbound s) length in
          let i := Z.of_nat (List.length payload) in
          let s := mkSocket rest (outbound s) (wquota s) in
          let w := with_c (set_conn (Some s)) w in
          if err then No_frame (Continue (log LogFailedReadPayload w))
          else if negb (i =? length)
               then No_frame (Continue (log (LogInvalidPayload length i) w))
               else Payload_read payload w
  end.

(** Lines 165-179: decode the envelope and the header, hand over to
    [handleMessage]. The arguments of the [c.log] call of line 171 are
    dereferenced whether or not [debug] is set. *)
Definition dispatch (payload : list byte) (w : World) : flow :=
  match proto_Unmarshal payload with
  | None => Continue (log (LogFailedUnmarshalProto payload) w)
  | Some message =>
      match DestinationId message, SourceId message,
            Namespace message, PayloadUtf8 message with
      | Some dst, Some src, Some ns, Some payloadUtf8 =>
          let w := log (LogRecv dst src ns payloadUtf8) w in
          match json_Unmarshal_PayloadHeader (list_byte_of_string payloadUtf8) with
          | None => Continue (log LogFailedUnmarshalHeader w)
          | Some headers =>
              match handleMessage message headers w with
              | Ret (Some w) => Continue w
              | Ret None => Blocked
              | Panic => Panicked
              end
          end
      | _, _, _, _ => Panicked
      end
  end.

(** One iteration of the [for] of [receiveLoop]. *)
Definition receiveLoop_iter (w : World) : flow :=
  match read_frame w with
  | Payload_read payload w => dispatch payload w
  | No_frame f => f
  end.

(** How [receiveLoop] ends. *)
Inductive loop_end : Type :=
  | Exited (w : World)        (* the [for] was left by [break] *)
  | Stuck                     (* blocked on a full channel *)
  | Crashed                   (* panic *)
  | OutOfFuel.

(** [func (c *Connection) receiveLoop()], by iteration count. *)
Fixpoint receiveLoop_fuel (fuel : nat) (w : World) : loop_end :=
  match fuel with
  | O => OutOfFuel
  | S fuel =>
      match receiveLoop_iter w with
      | Continue w => receiveLoop_fuel fuel w
      | Break w => Exited w
      | Blocked => Stuck
      | Panicked => Crashed
      end
  end.

(** What is left to read on the connection's socket. *)
Definition pending_input (w : World) : list rd :=
  match conn (c w) with
  | Some s => inbound s
  | None => []
  end.

(** Every iteration that continues has consumed input, so one iteration
    more than there is input always suffices. *)
Definition receiveLoop (w : World) : loop_end :=
  receiveLoop_fuel (S (List.length (pending_input w))) w.

(* ================================================================= *)
(** ** SendAndWait, statement by statement *)

(** What a [SendAndWait] call returns. *)
Definition sw_ret : Type := (option CastMessage * option error)%type.

(** Line 84: [c.Send(...)]; an error returns at once. *)
Definition SendAndWait_send {P : Type} `{Payload P} (payload : P)
    (sourceID destinationID namespace : string) (w : World)
  : res (option error * P * World) :=
  Send payload sourceID destinationID namespace w.

(** Lines 90-91: [resultChan := make(chan *pb.CastMessage, 1)] and
    [c.resultChanMap[requestID] = resultChan], with the package variable
    [requestID] as it is at that moment. *)
Definition SendAndWait_register (w : World) : chan * World :=
  let resultChan := next_chan w in
  let w := set_next_chan (S resultChan) w in
  let w := set_chans (<[resultChan := []]> (chans w)) w in
  (resultChan,
   with_c (set_resultChanMap (<[requestID w := resultChan]> (resultChanMap (c w)))) w).

(** Line 99: [result := <-resultChan], enabled when the buffer holds a
    message. *)
Definition SendAndWait_recv (resultChan : chan) (w : World)
  : option (sw_ret * World) :=
  match default [] (chans w !! resultChan) with
  | result :: rest =>
      Some ((Some result, None), set_chans (<[resultChan := rest]> (chans w)) w)
  | [] => None
  end.

(** Line 97: [<-ctx.Done()], enabled once the context is cancelled or past
    its deadline. *)
Definition SendAndWait_done (e : ctx_err) : sw_ret := (None, Some (ErrCtx e)).

(** Lines 92-94, run when the function returns:
    [delete(c.resultChanMap, requestID)], with the package variable
    [requestID] as it is at that moment. *)
Definition SendAndWait_deferred (w : World) : World :=
  with_c (set_resultChanMap (delete (requestID w) (resultChanMap (c w)))) w.

(** How a whole call ends. *)
Inductive sw_end (P : Type) : Type :=
  | SwReturned (r : sw_ret) (payload : P) (w : World)
  | SwWaiting (payload : P) (w : World)    (* neither case of the select is ready *)
  | SwPanic.
Arguments SwReturned {P} r payload w.
Arguments SwWaiting {P} payload w.
Arguments SwPanic {P}.

(** [func (c *Connection) SendAndWait(ctx, payload, sourceID, destinationID,
    namespace)]. [between] is what the other goroutines do between [Send]
    and the registration, [during] what they do while the call waits in the
    [select]; [ctx] is the context's error once it is done. When both cases
    of the [select] are ready Go picks either: [prefer_ctx] says which. *)
Definition SendAndWait {P : Type} `{Payload P}
    (between during : World -> World) (ctx : option ctx_err) (prefer_ctx : bool)
    (payload : P) (sourceID destinationID namespace : string) (w : World)
  : sw_end P :=
  match SendAndWait_send payload sourceID destinationID namespace w with
  | Panic => SwPanic
  | Ret (Some err, payload, w) => SwReturned (None, Some err) payload w
  | Ret (None, payload, w) =>
      let w := between w in
      let '(resultChan, w) := SendAndWait_register w in
      let w := during w in
      match SendAndWait_recv resultChan w, ctx with
      | Some (r, w'), None => SwReturned r payload (SendAndWait_deferred w')
      | Some (r, w'), Some e =>
          if prefer_ctx
          then SwReturned (SendAndWait_done e) payload (SendAndWait_deferred w)
          else SwReturned r payload (SendAndWait_deferred w')
      | None, Some e =>
          SwReturned (SendAndWait_done e) payload (SendAndWait_deferred w)
      | None, None => SwWaiting payload w
      end
  end.

End Transport.

Arguments SwReturned {P} r payload w.
Arguments SwWaiting {P} payload w.
Arguments SwPanic {P}.

(* ================================================================= *)
(** ** Goroutines: callers and the receive loop, interleaved *)

(** Where a goroutine inside [SendAndWait] stands. *)
Inductive pc : Type :=
  | AtRegister                     (* [Send] returned nil; line 90 is next *)
  | AtSelect (resultChan : chan)   (* waiting in the [select] *)
  | AtDefer (r : sw_ret)           (* a case fired; the deferred delete is next *)
  | Returned (r : sw_ret).

Record Sys : Type := mkSys {
  world : World;
  calls : gmap nat pc;             (* the [SendAndWait] calls, by goroutine *)
  loop_exited : bool               (* [receiveLoop] has returned *)
}.

(** One scheduling step. A [Send] runs as one step (the source notes that
    it is not safe to run two of them at once), and so does an iteration of
    the receive loop; [SendAndWait] is cut at its statements. *)
Inductive action (P : Type) : Type :=
  | AStart (dial : option Socket)                          (* [c.Start], with what the dial returns *)
  | ASend (payload : P) (src dst ns : string)              (* a goroutine runs [c.Send] *)
  | ACall (tid : nat) (payload : P) (src dst ns : string)  (* [tid] enters [SendAndWait]: line 84 *)
  | ARegister (tid : nat)                                  (* lines 90-91 *)
  | ARecv (tid : nat)                                      (* line 99 *)
  | ADone (tid : nat) (e : ctx_err)                        (* line 97 *)
  | ADefer (tid : nat)                                     (* lines 92-94 *)
  | ALoop.                                                 (* one iteration of [receiveLoop] *)
Arguments AStart {P} dial.
Arguments ASend {P} payload src dst ns.
Arguments ACall {P} tid payload src dst ns.
Arguments ARegister {P} tid.
Arguments ARecv {P} tid.
Arguments ADone {P} tid e.
Arguments ADefer {P} tid.
Arguments ALoop {P}.

Section Scheduler.
Context {L : Libs} {P : Type} {HP : Payload P}.

Definition set_pc (tid : nat) (p : pc) (w : World) (s : Sys) : Sys :=
  mkSys w (<[tid := p]> (calls s)) (loop_exited s).

(** A step that is not enabled leaves the system as it is: a statement of
    a call that stands elsewhere, a receive on an empty channel, an
    iteration of a loop that was never spawned, has returned, or waits to
    send on a full channel. *)
Definition exec (a : action P) (s : Sys) : res Sys :=
  match a with
  | AStart dial =>
      let '(_, w) := Start dial (world s) in
      Ret (mkSys w (calls s)
                 (loop_exited s && Nat.eqb (loops w) (loops (world s))))
  | ASend payload src dst ns =>
      let! (_, w) := Send payload src dst ns (world s) in
      Ret (mkSys w (calls s) (loop_exited s))
  | ACall tid payload src dst ns =>
      match calls s !! tid with
      | Some _ => Ret s
      | None =>
          let! (err, _, w) := SendAndWait_send payload src dst ns (world s) in
          match err with
          | Some e => Ret (set_pc tid (Returned (None, Some e)) w s)
          | None => Ret (set_pc tid AtRegister w s)
          end
      end
  | ARegister tid =>
      match calls s !! tid with
      | Some AtRegister =>
          let '(resultChan, w) := SendAndWait_register (world s) in
          Ret (set_pc tid (AtSelect resultChan) w s)
      | _ => Ret s
      end
  | ARecv tid =>
      match calls s !! tid with
      | Some (AtSelect resultChan) =>
          match SendAndWait_recv resultChan (world s) with
          | Some (r, w) => Ret (set_pc tid (AtDefer r) w s)
          | None => Ret s
          end
      | _ => Ret s
      end
  | ADone tid e =>
      match calls s !! tid with
      | Some (AtSelect _) => Ret (set_pc tid (AtDefer (SendAndWait_done e)) (world s) s)
      | _ => Ret s
      end
  | ADefer tid =>
      match calls s !! tid with
      | Some (AtDefer r) => Ret (set_pc tid (Returned r) (SendAndWait_deferred (world s)) s)
      | _ => Ret s
      end
  | ALoop =>
      if loop_exited s || Nat.eqb (loops (world s)) 0 then Ret s
      else match receiveLoop_iter (world s) with
           | Continue w => Ret (mkSys w (calls s) false)
           | Break w => Ret (mkSys w (calls s) true)
           | Blocked => Ret s
           | Panicked => Panic
           end
  end.

Fixpoint run (acts : list (action P)) (s : Sys) : res Sys :=
  match acts with
  | [] => Ret s
  | a :: acts => let! s := exec a s in run acts s
  end.

End Scheduler.

(** The system around a given program state: no call in flight. *)
Definition sys_of (w : World) : Sys := mkSys w ∅ false.

(* ================================================================= *)
(** ** An executable instance of the libraries

    The theorems below hold for every [Libs]. To run the model on concrete
    frames it is instantiated here with the protobuf wire format of
    [CastMessage] (fields 1 to 7; varint and length-delimited values) and
    with JSON restricted to what the connection exchanges: one object whose
    header members are strings and integers. *)

Module Wire.

(** *** Protocol buffers *)

Fixpoint EncodeVarint_fuel (fuel : nat) (x : Z) : list byte :=
  match fuel with
  | O => [byte_of_Z x]
  | S fuel =>
      if x <? 128 then [byte_of_Z x]
      else byte_of_Z (Z.lor (Z.land x 127) 128) :: EncodeVarint_fuel fuel (Z.shiftr x 7)
  end.

(** A 64-bit value takes at most ten bytes. *)
Definition EncodeVarint (x : Z) : list byte := EncodeVarint_fuel 9 x.

Fixpoint DecodeVarint_from (bs : list byte) (shift acc : Z) : option (Z * list byte) :=
  match bs with
  | [] => None
  | b :: bs =>
      let v := Z_of_byte b in
      let acc := Z.lor acc (Z.shiftl (Z.land v 127) shift) in
      if v <? 128 then Some (acc, bs)
      else if 63 <=? shift then None
      else DecodeVarint_from bs (shift + 7) acc
  end.

Definition DecodeVarint (bs : list byte) : option (Z * list byte) :=
  DecodeVarint_from bs 0 0.

Definition enc_varint_field (num : Z) (v : option Z) : list byte :=
  match v with
  | Some x => EncodeVarint (Z.lor (Z.shiftl num 3) 0) ++ EncodeVarint x
  | None => []
  end.

Definition enc_bytes_field (num : Z) (v : option (list byte)) : list byte :=
  match v with
  | Some b =>
      EncodeVarint (Z.lor (Z.shiftl num 3) 2) ++ EncodeVarint (Z.of_nat (length b)) ++ b
  | None => []
  end.

(** The five [required] fields of the message. *)
Definition required_set (m : CastMessage) : bool :=
  bool_decide (is_Some (ProtocolVersion m)) && bool_decide (is_Some (SourceId m))
  && bool_decide (is_Some (DestinationId m)) && bool_decide (is_Some (Namespace m))
  && bool_decide (is_Some (PayloadType m)).

Definition Marshal (m : CastMessage) : option (list byte) :=
  if required_set m then
    Some (enc_varint_field 1 (ProtocolVersion m)
          ++ enc_bytes_field 2 (list_byte_of_string <$> SourceId m)
          ++ enc_bytes_field 3 (list_byte_of_string <$> DestinationId m)
          ++ enc_bytes_field 4 (list_byte_of_string <$> Namespace m)
          ++ enc_varint_field 5 (PayloadType m)
          ++ enc_bytes_field 6 (list_byte_of_string <$> PayloadUtf8 m)
          ++ enc_bytes_field 7 (PayloadBinary m))
  else None.

Definition set_varint (num v : Z) (m : CastMessage) : CastMessage :=
  if num =? 1 then
    mkCastMessage (Some v) (SourceId m) (DestinationId m) (Namespace m)
                  (PayloadType m) (PayloadUtf8 m) (PayloadBinary m)
  else if num =? 5 then
    mkCastMessage (ProtocolVersion m) (SourceId m) (DestinationId m) (Namespace m)
                  (Some v) (PayloadUtf8 m) (PayloadBinary m)
  else m.

Definition set_bytes (num : Z) (b : list byte) (m : CastMessage) : CastMessage :=
  let s := string_of_list_byte b in
  if num =? 2 then
    mkCastMessage (ProtocolVersion m) (Some s) (DestinationId m) (Namespace m)
                  (PayloadType m) (PayloadUtf8 m) (PayloadBinary m)
  else if num =? 3 then
    mkCastMessage (ProtocolVersion m) (SourceId m) (Some s) (Namespace m)
                  (PayloadType m) (PayloadUtf8 m) (PayloadBinary m)
  else if num =? 4 then
    mkCastMessage (ProtocolVersion m) (SourceId m) (DestinationId m) (Some s)
                  (PayloadType m) (PayloadUtf8 m) (PayloadBinary m)
  else if num =? 6 then
    mkCastMessage (ProtocolVersion m) (SourceId m) (DestinationId m) (Namespace m)
                  (PayloadType m) (Some s) (PayloadBinary m)
  else if num =? 7 then
    mkCastMessage (ProtocolVersion m) (SourceId m) (DestinationId m) (Namespace m)
                  (PayloadType m) (PayloadUtf8 m) (Some b)
  else m.

Fixpoint Unmarshal_fields (fuel : nat) (bs : list byte) (m : CastMessage)
  : option CastMessage :=
  match bs with
  | [] => Some m
  | _ :: _ =>
      match fuel with
      | O => None
      | S fuel =>
          match DecodeVarint bs with
          | None => None
          | Some (key, bs) =>
              let num := Z.shiftr key 3 in
              let wt := Z.land key 7 in
              match DecodeVarint bs with
              | None => None
              | Some (v, bs) =>
                  if wt =? 0 then Unmarshal_fields fuel bs (set_varint num v m)
                  else if wt =? 2 then
                    if v <=? Z.of_nat (length bs)
                    then Unmarshal_fields fuel (drop (Z.to_nat v) bs)
                                          (set_bytes num (take (Z.to_nat v) bs) m)
                    else None
                  else None
              end
          end
      end
  end.

Definition Unmarshal (bs : list byte) : option CastMessage :=
  match Unmarshal_fields (length bs) bs
          (mkCastMessage None None None None None None None) with
  | Some m => if required_set m then Some m else None
  | None => None
  end.

(** *** JSON *)

Definition dquote : ascii := "034"%char.
Definition quoted (s : string) : string := String dquote (s +:+ String dquote "").

(** [json.Marshal] of a [PayloadHeader]: [requestId] is [omitempty]. *)
Definition Marshal_PayloadHeader (h : PayloadHeader) : option (list byte) :=
  Some (list_byte_of_string
          ("{" +:+ quoted "type" +:+ ":" +:+ quoted (Type_ h)
           +:+ (if RequestId h =? 0 then ""
                else "," +:+ quoted "requestId" +:+ ":" +:+ pretty (RequestId h))
           +:+ "}")).

Inductive jval : Type :=
  | JStr (s : string)
  | JNum (z : Z)
  | JOther.

Inductive jstate : Type :=
  | JStart
  | JKeyOrEnd
  | JKey (acc : string)
  | JColon (key : string)
  | JValue (key : string)
  | JInStr (key acc : string)
  | JInNum (key : string) (neg : bool) (acc : Z)
  | JInOther (key : string) (depth : nat)
  | JAfter
  | JEnd
  | JBad.

Definition is_space (ch : ascii) : bool :=
  match ch with
  | " "%char | "009"%char | "010"%char | "013"%char => true
  | _ => false
  end.

Definition digit_of (ch : ascii) : option Z :=
  let n := Z.of_N (N_of_ascii ch) in
  if (48 <=? n) && (n <=? 57) then Some (n - 48) else None.

Definition snoc (s : string) (ch : ascii) : string := s +:+ String ch "".

Definition num_val (neg : bool) (acc : Z) : jval := JNum (if neg then - acc else acc).

Definition jstep (st : jstate * list (string * jval)) (ch : ascii)
  : jstate * list (string * jval) :=
  let '(q, ms) := st in
  match q with
  | JStart =>
      if is_space ch then (JStart, ms)
      else if Ascii.eqb ch "{" then (JKeyOrEnd, ms) else (JBad, ms)
  | JKeyOrEnd =>
      if is_space ch then (JKeyOrEnd, ms)
      else if Ascii.eqb ch dquote then (JKey "", ms)
      else if Ascii.eqb ch "}" then (JEnd, ms) else (JBad, ms)
  | JKey acc =>
      if Ascii.eqb ch dquote then (JColon acc, ms) else (JKey (snoc acc ch), ms)
  | JColon key =>
      if is_space ch then (JColon key, ms)
      else if Ascii.eqb ch ":" then (JValue key, ms) else (JBad, ms)
  | JValue key =>
      if is_space ch then (JValue key, ms)
      else if Ascii.eqb ch dquote then (JInStr key "", ms)
      else if Ascii.eqb ch "-" then (JInNum key true 0, ms)
      else match digit_of ch with
           | Some d => (JInNum key false d, ms)
           | None =>
               if Ascii.eqb ch "{" || Ascii.eqb ch "["
               then (JInOther key 1, ms) else (JInOther key 0, ms)
           end
  | JInStr key acc =>
      if Ascii.eqb ch dquote then (JAfter, ms ++ [(key, JStr acc)])
      else (JInStr key (snoc acc ch), ms)
  | JInNum key neg acc =>
      match digit_of ch with
      | Some d => (JInNum key neg (acc * 10 + d), ms)
      | None =>
          if Ascii.eqb ch "," then (JKeyOrEnd, ms ++ [(key, num_val neg acc)])
          else if Ascii.eqb ch "}" then (JEnd, ms ++ [(key, num_val neg acc)])
          else if is_space ch then (JAfter, ms ++ [(key, num_val neg acc)])
          else (JInOther key 0, ms)
      end
  | JInOther key depth =>
      if Ascii.eqb ch "{" || Ascii.eqb ch "[" then (JInOther key (S depth), ms)
      else match depth with
           | O =>
               if Ascii.eqb ch "," then (JKeyOrEnd, ms ++ [(key, JOther)])
               else if Ascii.eqb ch "}" then (JEnd, ms ++ [(key, JOther)])
               else (JInOther key O, ms)
           | S d =>
               if Ascii.eqb ch "}" || Ascii.eqb ch "]" then (JInOther key d, ms)
               else (JInOther key depth, ms)
           end
  | JAfter =>
      if is_space ch then (JAfter, ms)
      else if Ascii.eqb ch "," then (JKeyOrEnd, ms)
      else if Ascii.eqb ch "}" then (JEnd, ms) else (JBad, ms)
  | JEnd => if is_space ch then (JEnd, ms) else (JBad, ms)
  | JBad => (JBad, ms)
  end.

(** The members of a JSON object, in order; [None] when the text is not one. *)
Definition members (data : list byte) : option (list (string * jval)) :=
  match fold_left jstep (ascii_of_byte <$> data) (JStart, []) with
  | (JEnd, ms) => Some ms
  | _ => None
  end.

Fixpoint member (key : string) (ms : list (string * jval)) : option jval :=
  match ms with
  | [] => None
  | (k, v) :: ms => if String.eqb k key then Some v else member key ms
  end.

(** [jsonparser.GetString(data, key)]. *)
Definition GetString (data : list byte) (key : string) : option string :=
  match members data with
  | Some ms => match member key ms with Some (JStr s) => Some s | _ => None end
  | None => None
  end.

(** [jsonparser.GetInt(data, key)]: zero beside every error. *)
Definition GetInt (data : list byte) (key : string) : Z * bool :=
  match members data with
  | Some ms => match member key ms with Some (JNum z) => (z, true) | _ => (0, false) end
  | None => (0, false)
  end.

(** [json.Unmarshal(data, &headers)] into a zero [PayloadHeader]. *)
Definition Unmarshal_PayloadHeader (data : list byte) : option PayloadHeader :=
  match members data with
  | None => None
  | Some ms =>
      match member "type" ms, member "requestId" ms with
      | Some (JStr t), Some (JNum r) => Some (mkPayloadHeader t r)
      | Some (JStr t), None => Some (mkPayloadHeader t 0)
      | None, Some (JNum r) => Some (mkPayloadHeader "" r)
      | None, None => Some (mkPayloadHeader "" 0)
      | _, _ => None
      end
  end.

#[global]
Instance libs : Libs := {
  proto_SetDefaults m := m;
  proto_Marshal := Marshal;
  proto_Unmarshal := Unmarshal;
  json_Marshal_PayloadHeader := Marshal_PayloadHeader;
  json_Unmarshal_PayloadHeader := Unmarshal_PayloadHeader;
  jsonparser_GetString := GetString;
  jsonparser_GetInt := GetInt
}.

End Wire.

(* ================================================================= *)
(** ** Concrete peers, for the executable examples *)

Definition GetStatusHeader : PayloadHeader := mkPayloadHeader "GET_STATUS" 0.

Definition ns_heartbeat : string := "urn:x-cast:com.google.cast.tp.heartbeat".
Definition ns_receiver : string := "urn:x-cast:com.google.cast.receiver".

(** The JSON text of a header-only payload. *)
Definition header_json (h : PayloadHeader) : string :=
  string_of_list_byte (default [] (Wire.Marshal_PayloadHeader h)).

(** The frame a peer writes for a header-only payload. *)
Definition peer_frame (src dst ns : string) (h : PayloadHeader) : list byte :=
  match Wire.Marshal_PayloadHeader h with
  | Some json =>
      match Wire.Marshal (envelope src dst ns (string_of_list_byte json)) with
      | Some data => frame data
      | None => []
      end
  | None => []
  end.

(** A dialled socket on which the peer sends [input] and then closes. *)
Definition peer_socket (input : list byte) : Socket :=
  mkSocket (RByte <$> input) [] None.

(** A connection started on [peer_socket input], debug logging off. *)
Definition started (input : list byte) : World :=
  snd (Start (Some (peer_socket input)) (init_World false)).

(** The same on a socket that takes [q] more bytes and then fails every
    write. *)
Definition started_quota (q : Z) (input : list byte) : World :=
  snd (Start (Some (mkSocket (RByte <$> input) [] (Some q))) (init_World false)).


(** The program state once the loop has read up to [rest]. *)
Definition consume (rest : list rd) (w : World) : World :=
  match conn (c w) with
  | Some s => with_c (set_conn (Some (mkSocket rest (outbound s) (wquota s)))) w
  | None => w
  end.

(** What the other goroutines do meanwhile, as interference for
    [SendAndWait]: one iteration of the receive loop, or a [Send] by another
    caller. *)
Definition loop_turn (w : World) : World :=
  match receiveLoop_iter (L := Wire.libs) w with
  | Continue w' | Break w' => w'
  | Blocked | Panicked => w
  end.

Definition other_Send (payload : PayloadHeader) (src dst ns : string) (w : World)
  : World :=
  match Send (L := Wire.libs) payload src dst ns w with
  | Ret (_, _, w') => w'
  | Panic => w
  end.

(** The frames of the examples: a PING of the peer, and the peer's replies
    to requests 1 and 2. *)
Definition ping_frame : list byte :=
  peer_frame "receiver-0" "sender-0" ns_heartbeat (mkPayloadHeader "PING" 0).

Definition reply_frame (id : Z) : list byte :=
  peer_frame "receiver-0" "sender-0" ns_receiver (mkPayloadHeader "RECEIVER_STATUS" id).

(** A call waiting for its reply on a socket the peer has closed: [Send]
    was assigned id 1 and the slot is registered under 1. *)
Definition w_pending : World :=
  snd (SendAndWait_register
         (other_Send GetStatusHeader "sender-0" "receiver-0" ns_receiver (started []))).

(** Malformed input, each followed by a well-formed PING: an empty frame; a
    frame declaring ten bytes of which two arrive before a read error; a
    frame whose payload is no envelope; an envelope whose payload is no
    JSON. *)
Definition garbage : list byte := [xff].

Definition not_json_envelope : CastMessage :=
  envelope "receiver-0" "sender-0" ns_receiver "not json".

Definition not_json_payload : list byte :=
  default [] (Wire.Marshal not_json_envelope).








(** What the executable libraries make of a header-only payload: the JSON
    text and the envelope bytes. *)
Definition wire_json (h : PayloadHeader) : list byte :=
  default [] (Wire.Marshal_PayloadHeader h).

Definition wire_envelope (src dst ns : string) (h : PayloadHeader) : list byte :=
  default [] (Wire.Marshal (envelope src dst ns (string_of_list_byte (wire_json h)))).




(** The bytes written on the connection's socket. *)
Definition written (w : World) : list byte :=
  match conn (c w) with
  | Some s => outbound s
  | None => []
  end.

(** The envelopes a peer reads off a byte stream, frame by frame. *)
Fixpoint peer_reads (fuel : nat) (bs : list byte) : list (option CastMessage) :=
  match fuel, bs with
  | S fuel, _ :: _ =>
      let n := Z.to_nat (Uint32 (take 4 bs)) in
      Wire.Unmarshal (take n (drop 4 bs)) :: peer_reads fuel (drop (4 + n) bs)
  | _, _ => []
  end.

(* ================================================================= *)
(** ** Predicates of the statements *)

(** The socket takes [n] more bytes without a write error. *)
Definition accepts (s : Socket) (n : Z) : Prop :=
  match wquota s with
  | None => True
  | Some q => n <= q
  end.

(** The fields neither [Send] nor the receive loop's bookkeeping writes. *)
Definition same_slots (w w' : World) : Prop :=
  resultChanMap (c w') = resultChanMap (c w) /\ chans w' = chans w
  /\ next_chan w' = next_chan w.

Definition same_flags (w w' : World) : Prop :=
  connected (c w') = connected (c w) /\ debug (c w') = debug (c w)
  /\ loops w' = loops w.

(** Everything but the socket and the log is as it was. *)
Definition quiet (w w' : World) : Prop :=
  requestID w' = requestID w /\ issued w' = issued w
  /\ PongHeader w' = PongHeader w /\ same_slots w w' /\ same_flags w w'.

(** The request counter moves by at most one [Send]. *)
Definition counter_step (w w' : World) : Prop :=
  (requestID w' = requestID w /\ issued w' = issued w)
  \/ (requestID w' = int_wrap (requestID w + 1)
      /\ issued w' = issued w ++ [requestID w']).

(** What [handleMessage] leaves alone: the correlation table itself, the
    flags, the channel allocator and the input. *)
Definition table_kept (w w' : World) : Prop :=
  resultChanMap (c w') = resultChanMap (c w) /\ next_chan w' = next_chan w
  /\ same_flags w w' /\ pending_input w' = pending_input w.

(** One iteration of the receive loop that ends in [continue]. *)
Definition iterates {L : Libs} (w w' : World) : Prop :=
  receiveLoop_iter w = Continue w'.



(* ================================================================= *)
(** ** Callers' sequences and views of the state *)

(** A caller that calls [Start] again and again, with what each dial
    returns. *)
Fixpoint Starts (dials : list (option Socket)) (w : World) : World :=
  match dials with
  | [] => w
  | dial :: dials => Starts dials (snd (Start dial w))
  end.

(** The dials up to the first that succeeds, that one included. *)
Fixpoint attempts (dials : list (option Socket)) : nat :=
  match dials with
  | [] => O
  | None :: dials => S (attempts dials)
  | Some _ :: _ => 1%nat
  end.

(** The socket of the first dial that succeeds. *)
Fixpoint first_dialled (dials : list (option Socket)) : option Socket :=
  match dials with
  | [] => None
  | None :: dials => first_dialled dials
  | Some s :: _ => Some s
  end.

(** The program state without what [c.log] printed and without the flag
    that makes it print. *)
Definition silent (w : World) : World :=
  mkWorld (requestID w) (PongHeader w)
          (mkConnection (conn (c w)) (resultChanMap (c w)) false (connected (c w)))
          (chans w) (next_chan w) [] (loops w) (issued w).

Definition silent_res {A : Type} (r : res (A * World)) : res (A * World) :=
  match r with
  | Ret (a, w) => Ret (a, silent w)
  | Panic => Panic
  end.

Definition silent_hm (r : res (option World)) : res (option World) :=
  match r with
  | Ret (Some w) => Ret (Some (silent w))
  | other => other
  end.

Definition silent_flow (f : flow) : flow :=
  match f with
  | Continue w => Continue (silent w)
  | Break w => Break (silent w)
  | other => other
  end.

Definition silent_end (e : loop_end) : loop_end :=
  match e with
  | Exited w => Exited (silent w)
  | other => other
  end.

(** The receive loop during [n] iterations, or until it stops. *)
Fixpoint turns {L : Libs} (n : nat) (w : World) : World :=
  match n with
  | O => w
  | S n =>
      match receiveLoop_iter w with
      | Continue w' => turns n w'
      | Break w' => w'
      | Blocked | Panicked => w
      end
  end.

(** The id an envelope carries, as [handleMessage] reads it. *)
Definition carried_id {L : Libs} (m : CastMessage) : option Z :=
  match PayloadUtf8 m with
  | Some payloadUtf8 =>
      Some (fst (jsonparser_GetInt (list_byte_of_string payloadUtf8) "requestId"))
  | None => None
  end.

(** A payload the loop decodes: of a size the prefix can declare, an
    envelope with its four string fields, whose JSON unmarshals as a
    header. *)
Definition decodes {L : Libs} (payload : list byte) (m : CastMessage) : Prop :=
  0 < Z.of_nat (length payload) < 2 ^ 32
  /\ proto_Unmarshal payload = Some m
  /\ is_Some (DestinationId m) /\ is_Some (SourceId m) /\ is_Some (Namespace m)
  /\ exists payloadUtf8 : string,
       PayloadUtf8 m = Some payloadUtf8
       /\ is_Some (json_Unmarshal_PayloadHeader (list_byte_of_string payloadUtf8)).

(** An envelope that is no PING and carries the request id [r]. *)
Definition reply_for {L : Libs} (r : Z) (m : CastMessage) : Prop :=
  exists payloadUtf8 messageType : string,
    PayloadUtf8 m = Some payloadUtf8
    /\ jsonparser_GetString (list_byte_of_string payloadUtf8) "type" = Some messageType
    /\ messageType <> "PING"
    /\ fst (jsonparser_GetInt (list_byte_of_string payloadUtf8) "requestId") = r.

(** An envelope whose JSON has no "type". *)
Definition untyped {L : Libs} (m : CastMessage) : Prop :=
  exists payloadUtf8 : string,
    PayloadUtf8 m = Some payloadUtf8
    /\ jsonparser_GetString (list_byte_of_string payloadUtf8) "type" = None.

(** A call waiting on the slot of id 1 while the peer sends [input]. *)
Definition pending_on (input : list byte) : World :=
  snd (SendAndWait_register
         (other_Send GetStatusHeader "sender-0" "receiver-0" ns_receiver
                     (started input))).

(** The socket of a connection that has one. *)
Definition socket_of (w : World) : Socket := default (peer_socket []) (conn (c w)).

(** The peer's reply to request [id], as an envelope and as its bytes. *)
Definition reply (id : Z) : CastMessage :=
  envelope "receiver-0" "sender-0" ns_receiver
           (header_json (mkPayloadHeader "RECEIVER_STATUS" id)).

Definition reply_bytes (id : Z) : list byte :=
  wire_envelope "receiver-0" "sender-0" ns_receiver (mkPayloadHeader "RECEIVER_STATUS" id).

(** Frames one after the other on the wire. *)
Definition frames (payloads : list (list byte)) : list byte :=
  concat (frame <$> payloads).

(** A stream without read errors: bytes, then the end of the stream. *)
Definition clean (stream : list rd) : Prop := Forall (fun x => x <> RErr) stream.

(** The system a schedule leads to from a fresh connection. *)
Definition sys_after (acts : list (action PayloadHeader)) : Sys :=
  match run (L := Wire.libs) acts (sys_of (init_World false)) with
  | Ret s => s
  | Panic => sys_of (init_World false)
  end.

(** The parts of what a call came to. *)
Definition end_result {P : Type} (e : sw_end P) : sw_ret :=
  match e with
  | SwReturned r _ _ => r
  | _ => (None, None)
  end.

Definition end_payload {P : Type} (payload : P) (e : sw_end P) : P :=
  match e with
  | SwReturned _ p _ | SwWaiting p _ => p
  | SwPanic => payload
  end.

Definition end_world {P : Type} (w : World) (e : sw_end P) : World :=
  match e with
  | SwReturned _ _ w' | SwWaiting _ w' => w'
  | SwPanic => w
  end.

(** An envelope of payload type BINARY (1): it has no string payload. *)
Definition binary_envelope : CastMessage :=
  mkCastMessage (Some CastMessage_CASTV2_1_0) (Some "receiver-0") (Some "sender-0")
                (Some ns_receiver) (Some 1) None (Some [x01; x02]).

Definition binary_bytes : list byte := default [] (Wire.Marshal binary_envelope).

(** Two callers have had their [Send]; then both register, one after the
    other, while the peer's two replies are on their way. *)
Definition two_registered : World :=
  snd (SendAndWait_register
         (snd (SendAndWait_register
                 (other_Send GetStatusHeader "sender-0" "receiver-0" ns_receiver
                    (other_Send GetStatusHeader "sender-0" "receiver-0" ns_receiver
                       (started (reply_frame 1 ++ reply_frame 2))))))).

(** Every channel of the correlation table has been made: the allocator is
    past it. *)
Definition chans_made (w : World) : Prop :=
  forall (k : Z) (ch : chan), resultChanMap (c w) !! k = Some ch -> (ch < next_chan w)%nat.

(* ================================================================= *)
(** * Properties *)

Ltac break_match :=
  match goal with
  | H : context [match ?x with _ => _ end] |- _ =>
      let E := fresh "E" in destruct x eqn:E
  | H : context [if ?x then _ else _] |- _ =>
      let E := fresh "E" in destruct x eqn:E
  end.

(** ** Bytes and the length prefix *)

Lemma Z_of_byte_range (b : byte) : 0 <= Z_of_byte b < 256.
Proof.
  unfold Z_of_byte. pose proof (Byte.to_N_bounded b). lia.
Qed.

Lemma Z_of_byte_of_Z (z : Z) : Z_of_byte (byte_of_Z z) = z mod 256.
Proof.
  unfold Z_of_byte, byte_of_Z.
  pose proof (Z.mod_pos_bound z 256 ltac:(lia)) as Hr.
  destruct (Byte.of_N (Z.to_N (z mod 256))) as [b|] eqn:E.
  - apply Byte.to_of_N in E. rewrite E. lia.
  - apply Byte.of_N_None_iff in E. lia.
Qed.

Lemma PutUint32_length (v : Z) : length (PutUint32 v) = 4%nat.
Proof. reflexivity. Qed.

Lemma Uint32_PutUint32 (v : Z) : 0 <= v < 2 ^ 32 -> Uint32 (PutUint32 v) = v.
Proof.
  intros Hv. unfold Uint32, PutUint32. rewrite !Z_of_byte_of_Z.
  change 256 with (2 ^ 8).
  apply Z.bits_inj'. intros n Hn.
  rewrite !Z.lor_spec, !Z.shiftl_spec by lia.
  destruct (Z_lt_dec n 8) as [H8|H8].
  { rewrite (Z.testbit_neg_r _ (n - 8)), (Z.testbit_neg_r _ (n - 16)),
      (Z.testbit_neg_r _ (n - 24)) by lia.
    rewrite Z.mod_pow2_bits_low by lia. now rewrite !orb_false_r. }
  rewrite (Z.mod_pow2_bits_high v 8 n) by lia. cbn [orb].
  destruct (Z_lt_dec n 16) as [H16|H16].
  { rewrite (Z.testbit_neg_r _ (n - 16)), (Z.testbit_neg_r _ (n - 24)) by lia.
    rewrite Z.mod_pow2_bits_low, Z.shiftr_spec by lia.
    rewrite !orb_false_r. f_equal. lia. }
  rewrite (Z.mod_pow2_bits_high _ 8 (n - 8)) by lia. cbn [orb].
  destruct (Z_lt_dec n 24) as [H24|H24].
  { rewrite (Z.testbit_neg_r _ (n - 24)) by lia.
    rewrite Z.mod_pow2_bits_low, Z.shiftr_spec by lia.
    rewrite !orb_false_r. f_equal. lia. }
  rewrite (Z.mod_pow2_bits_high _ 8 (n - 16)) by lia. cbn [orb].
  destruct (Z_lt_dec n 32) as [H32|H32].
  { rewrite Z.mod_pow2_bits_low, Z.shiftr_spec by lia. f_equal. lia. }
  rewrite Z.mod_pow2_bits_high by lia.
  symmetry. apply (Z.bits_above_log2 v n); [lia|].
  destruct (Z.eq_dec v 0) as [->|Hz]; [cbn; lia|].
  assert (Z.log2 v < 32) by (apply Z.log2_lt_pow2; lia). lia.
Qed.


Lemma uint32_small (z : Z) : 0 <= z < 2 ^ 32 -> uint32 z = z.
Proof. intros H. unfold uint32. apply Z.mod_small. lia. Qed.

(** ** Reading from the socket *)

Lemma ReadFull_bytes (bs : list byte) (rest : list rd) :
  ReadFull ((RByte <$> bs) ++ rest) (Z.of_nat (length bs)) = (bs, false, rest).
Proof.
  induction bs as [|b bs IH]; cbn [length fmap list_fmap app].
  - destruct rest; reflexivity.
  - cbn [ReadFull].
    destruct (Z.leb_spec (Z.of_nat (S (length bs))) 0) as [H|H]; [lia|].
    replace (Z.of_nat (S (length bs)) - 1) with (Z.of_nat (length bs)) by lia.
    cbn [fmap list_fmap] in IH. now rewrite IH.
Qed.

Lemma ReadFull_ok (s : list rd) : forall (n : Z) (bs : list byte) (r : list rd),
  ReadFull s n = (bs, false, r) ->
  s = (RByte <$> bs) ++ r /\ Z.of_nat (length bs) = Z.max 0 n.
Proof.
  induction s as [|x s IH]; intros n bs r H; cbn [ReadFull] in H.
  - destruct (Z.leb_spec n 0); inversion H; subst. split; [reflexivity|cbn; lia].
  - destruct (Z.leb_spec n 0) as [Hn|Hn].
    + inversion H; subst. split; [reflexivity|cbn; lia].
    + destruct x as [b|]; [|inversion H].
      destruct (ReadFull s (n - 1)) as [[bs' e'] r'] eqn:E.
      inversion H; subst. destruct (IH _ _ _ E) as [-> Hl].
      split; [reflexivity|]. cbn [length]. lia.
Qed.

Lemma ReadFull_rest (s : list rd) : forall (n : Z) (bs : list byte) (e : bool) (r : list rd),
  ReadFull s n = (bs, e, r) -> (length r <= length s)%nat.
Proof.
  induction s as [|x s IH]; intros n bs e r H; cbn [ReadFull] in H.
  - destruct (n <=? 0); inversion H; subst; cbn; lia.
  - destruct (n <=? 0).
    + inversion H; subst; cbn; lia.
    + destruct x as [b|].
      * destruct (ReadFull s (n - 1)) as [[bs' e'] r'] eqn:E.
        inversion H; subst. apply IH in E. cbn [length]. lia.
      * inversion H; subst. cbn [length]. lia.
Qed.

(** A short read: an error, and fewer bytes than asked for. *)
Lemma ReadFull_err (s : list rd) : forall (n : Z) (bs : list byte) (r : list rd),
  ReadFull s n = (bs, true, r) -> Z.of_nat (length bs) < n.
Proof.
  induction s as [|x s IH]; intros n bs r H; cbn [ReadFull] in H.
  - destruct (Z.leb_spec n 0); inversion H; subst. cbn; lia.
  - destruct (Z.leb_spec n 0) as [Hn|Hn]; [inversion H|].
    destruct x as [b|].
    + destruct (ReadFull s (n - 1)) as [[bs' e'] r'] eqn:E.
      inversion H; subst. apply IH in E. cbn [length]. lia.
    + inversion H; subst. cbn; lia.
Qed.

(** ** What Send touches *)

Section SendFacts.
Context {L : Libs} {P : Type} {HP : Payload P}.

Lemma Send_effect (payload p' : P) (src dst ns : string) (w w' : World)
    (err : option error) :
  Send payload src dst ns w = Ret (err, p', w') ->
  requestID w' = int_wrap (requestID w + 1)
  /\ issued w' = issued w ++ [requestID w']
  /\ p' = SetRequestId payload (requestID w')
  /\ PongHeader w' = PongHeader w
  /\ same_slots w w' /\ same_flags w w'
  /\ pending_input w' = pending_input w.
Proof.
  unfold Send, conn_Write, log, sock_Write, deref, res_bind, same_slots,
    same_flags, pending_input.
  destruct w as [rid pong [cn tbl dbg cnd] chs nxt lgs lps iss]; cbn.
  intros H.
  repeat (break_match; simplify_eq/=); auto 10.
Qed.

End SendFacts.

Section LoopFacts.
Context {L : Libs}.

Lemma quiet_refl (w : World) : quiet w w.
Proof. repeat split. Qed.

Lemma quiet_trans (w1 w2 w3 : World) : quiet w1 w2 -> quiet w2 w3 -> quiet w1 w3.
Proof.
  unfold quiet, same_slots, same_flags. intros H1 H2.
  destruct H1 as (?&?&?&(?&?&?)&?&?&?), H2 as (?&?&?&(?&?&?)&?&?&?).
  repeat split; congruence.
Qed.

Lemma quiet_log (e : LogEntry) (w : World) : quiet w (log e w).
Proof. unfold log. destruct (debug (c w)); repeat split. Qed.

Lemma log_conn (e : LogEntry) (w : World) : conn (c (log e w)) = conn (c w).
Proof. unfold log. now destruct (debug (c w)). Qed.

Lemma log_pending_input (e : LogEntry) (w : World) :
  pending_input (log e w) = pending_input w.
Proof. unfold pending_input. now rewrite log_conn. Qed.

Lemma quiet_set_conn (s : option Socket) (w : World) : quiet w (with_c (set_conn s) w).
Proof. repeat split. Qed.

(** How [read_frame] ends: it never blocks, it panics only on a nil
    connection, and whenever the loop goes on it has consumed input. *)
Lemma read_frame_effect (w : World) :
  match read_frame w with
  | Payload_read payload w' =>
      quiet w w' /\ (length (pending_input w') < length (pending_input w))%nat
      /\ outbound <$> conn (c w') = outbound <$> conn (c w)
  | No_frame (Continue w') =>
      quiet w w' /\ (length (pending_input w') < length (pending_input w))%nat
      /\ outbound <$> conn (c w') = outbound <$> conn (c w)
  | No_frame (Break w') =>
      quiet w w' /\ outbound <$> conn (c w') = outbound <$> conn (c w)
      /\ logs w' = logs w ++ (if debug (c w) then [LogFailedBinaryRead] else [])
  | No_frame Blocked => False
  | No_frame Panicked => conn (c w) = None
  end.
Proof.
  unfold read_frame, pending_input. destruct (conn (c w)) as [s|] eqn:Hc; [|reflexivity].
  destruct (ReadFull (inbound s) 4) as [[b err] rest] eqn:E1.
  destruct err.
  { unfold quiet, same_slots, same_flags, log. cbn.
    destruct (debug (c w)) eqn:Hd; cbn; rewrite ?app_nil_r; auto 12. }
  apply ReadFull_ok in E1 as [E1 Hb]. cbn [inbound outbound wquota].
  assert (Hlen : (length rest < length (inbound s))%nat).
  { rewrite E1, length_app, length_fmap. lia. }
  destruct (Uint32 b =? 0).
  { unfold quiet, same_slots, same_flags, log. cbn.
    destruct (debug (c w)) eqn:Hd; cbn; auto 12. }
  destruct (ReadFull rest (Uint32 b)) as [[payload err] rest'] eqn:E2.
  pose proof (ReadFull_rest _ _ _ _ _ E2) as Hr.
  assert (length rest' < length (inbound s))%nat by lia.
  destruct err; [|destruct (negb (Z.of_nat (length payload) =? Uint32 b))];
    unfold quiet, same_slots, same_flags, log; cbn;
    destruct (debug (c w)) eqn:Hd; cbn; auto 12.
Qed.

Lemma chan_send_effect (ch : chan) (m : CastMessage) (w w' : World) :
  chan_send ch m w = Some w' ->
  default [] (chans w !! ch) = [] /\ w' = set_chans (<[ch := [m]]> (chans w)) w.
Proof.
  unfold chan_send. destruct (default [] (chans w !! ch)); [|discriminate].
  intros H; inversion H; auto.
Qed.

Lemma handleMessage_effect (m : CastMessage) (h : PayloadHeader) (w w' : World) :
  handleMessage m h w = Ret (Some w') ->
  counter_step w w' /\ table_kept w w'.
Proof.
  unfold handleMessage, deref, res_bind.
  destruct (PayloadUtf8 m) as [pu|]; [|discriminate].
  destruct (jsonparser_GetString _ _) as [t|].
  2:{ intros H; inversion H; subst. split; [left|]; unfold table_kept, same_flags, log;
      destruct (debug (c w)) eqn:Hd; cbn; auto 10. }
  destruct (String.eqb t "PING").
  - destruct (SourceId m) as [src|]; [|discriminate].
    destruct (DestinationId m) as [dst|]; [|discriminate].
    destruct (Namespace m) as [ns|]; [|discriminate].
    destruct (Send (PongHeader w) src dst ns w) as [[[err pong] w1]|] eqn:ES; [|discriminate].
    apply Send_effect in ES as (Hr & Hi & _ & _ & (Ht & _ & Hn) & (Hcn & Hd & Hl) & Hp).
    intros H.
    assert (Hw : w' = set_PongHeader pong w1
                 \/ exists e, w' = log (LogPingFailed e) (set_PongHeader pong w1)).
    { destruct err; inversion H; eauto. }
    clear H. unfold counter_step, table_kept, same_flags, pending_input in *.
    destruct Hw as [->|[e ->]]; unfold log; cbn;
      [|destruct (debug (c w1)) eqn:Hd1; cbn]; (split; [right; split; congruence|]);
      repeat split; congruence.
  - destruct (jsonparser_GetInt _ _) as [rid ok].
    set (w0 := if ok then w else log (LogNoRequestId pu) w).
    assert (H0 : counter_step w w0 /\ table_kept w w0 /\ chans w0 = chans w).
    { subst w0. destruct ok; [repeat split; left; auto|].
      unfold counter_step, table_kept, same_flags, pending_input, log.
      destruct (debug (c w)) eqn:Hd; cbn; auto 12. }
    destruct H0 as (Hc0 & Ht0 & _).
    destruct (resultChanMap (c w0) !! rid) as [ch|].
    + intros H. inversion H as [H1]. apply chan_send_effect in H1 as [_ ->].
      split; [exact Hc0|exact Ht0].
    + intros H. inversion H; subst. auto.
Qed.

Lemma counter_step_quiet_l (w1 w2 w3 : World) :
  quiet w1 w2 -> counter_step w2 w3 -> counter_step w1 w3.
Proof.
  unfold quiet, counter_step. intros (Hr & Hi & _) [[? ?]|[? ?]]; [left|right];
    split; congruence.
Qed.

Lemma dispatch_effect (payload : list byte) (w w' : World) :
  dispatch payload w = Continue w' -> counter_step w w' /\ table_kept w w'.
Proof.
  unfold dispatch.
  assert (Hlog : forall e w0, counter_step w0 (log e w0) /\ table_kept w0 (log e w0)).
  { intros e w0. unfold counter_step, table_kept, same_flags, pending_input, log.
    destruct (debug (c w0)) eqn:Hd; cbn; auto 12. }
  destruct (proto_Unmarshal payload) as [m|].
  2:{ intros H; inversion H; subst. apply Hlog. }
  destruct (DestinationId m) as [dst|]; [|discriminate].
  destruct (SourceId m) as [src|]; [|discriminate].
  destruct (Namespace m) as [ns|]; [|discriminate].
  destruct (PayloadUtf8 m) as [pu|]; [|discriminate].
  set (w1 := log (LogRecv dst src ns pu) w).
  destruct (Hlog (LogRecv dst src ns pu) w) as [Hc1 Ht1]. fold w1 in Hc1, Ht1.
  assert (Hq : quiet w w1) by apply quiet_log.
  assert (Hjoin : forall w2, counter_step w1 w2 /\ table_kept w1 w2 ->
                             counter_step w w2 /\ table_kept w w2).
  { intros w2 [Hc2 Ht2]. split; [eapply counter_step_quiet_l; eauto|].
    unfold table_kept, same_flags in *.
    destruct Ht1 as (?&?&(?&?&?)&?), Ht2 as (?&?&(?&?&?)&?).
    repeat split; congruence. }
  destruct (json_Unmarshal_PayloadHeader _) as [h|].
  2:{ intros H; inversion H; subst. apply Hjoin, Hlog. }
  destruct (handleMessage m h w1) as [[w2|]|] eqn:EH; try discriminate.
  intros H; inversion H; subst. apply Hjoin. now apply handleMessage_effect in EH.
Qed.

Lemma dispatch_no_Break (payload : list byte) (w w' : World) :
  dispatch payload w <> Break w'.
Proof.
  unfold dispatch.
  repeat match goal with
         | |- context [match ?x with _ => _ end] => destruct x
         end; discriminate.
Qed.

(** An iteration that goes on has consumed input and has moved the counter
    by at most one [Send]. *)
Lemma receiveLoop_iter_Continue (w w' : World) :
  receiveLoop_iter w = Continue w' ->
  counter_step w w' /\ resultChanMap (c w') = resultChanMap (c w)
  /\ next_chan w' = next_chan w /\ same_flags w w'
  /\ (length (pending_input w') < length (pending_input w))%nat.
Proof.
  unfold receiveLoop_iter. pose proof (read_frame_effect w) as Hr.
  destruct (read_frame w) as [payload w1|f].
  - destruct Hr as (Hq & Hlen & _). intros H.
    apply dispatch_effect in H as [Hc (Ht & Hn & Hf & Hp)].
    split; [eapply counter_step_quiet_l; eauto|].
    unfold quiet, same_slots, same_flags in *.
    destruct Hq as (?&?&?&(?&?&?)&?&?&?), Hf as (?&?&?).
    repeat split; try congruence.
  - intros ->. destruct Hr as (Hq & Hlen & _).
    unfold quiet, same_slots, same_flags in *.
    destruct Hq as (?&?&?&(?&?&?)&?&?&?).
    split; [left; auto|]. repeat split; auto.
Qed.

(** The iteration that leaves the loop: the failed read of the length
    prefix, which is logged and changes nothing else. *)
Lemma receiveLoop_iter_Break (w w' : World) :
  receiveLoop_iter w = Break w' ->
  quiet w w' /\ outbound <$> conn (c w') = outbound <$> conn (c w)
  /\ logs w' = logs w ++ (if debug (c w) then [LogFailedBinaryRead] else []).
Proof.
  unfold receiveLoop_iter. pose proof (read_frame_effect w) as Hr.
  destruct (read_frame w) as [payload w1|f].
  - intros H. now apply dispatch_no_Break in H.
  - intros ->. exact Hr.
Qed.

Lemma receiveLoop_fuel_enough (fuel : nat) : forall w : World,
  (length (pending_input w) < fuel)%nat -> receiveLoop_fuel fuel w <> OutOfFuel.
Proof.
  induction fuel as [|fuel IH]; intros w Hlen; [lia|].
  cbn [receiveLoop_fuel]. destruct (receiveLoop_iter w) as [w'| | |] eqn:E;
    try discriminate.
  apply receiveLoop_iter_Continue in E as (_ & _ & _ & _ & Hlt).
  apply IH. lia.
Qed.

(** [receiveLoop] always comes to an end on a finite input. *)
Lemma receiveLoop_total (w : World) : receiveLoop w <> OutOfFuel.
Proof. apply receiveLoop_fuel_enough. lia. Qed.

End LoopFacts.

(* ================================================================= *)
(** * The claims *)

(** ** C5: Start after a failed dial *)

(** What [Start] does on a connection that is not connected when the dial
    fails. *)
Lemma Start_dial_failed (w : World) :
  connected (c w) = false ->
  Start None w = (Some ErrConnect, add_loop (with_c (set_conn None) w)).
Proof. intros H. unfold Start, connect. now rewrite H. Qed.

(** A loop on a nil connection panics at its first read. *)
Lemma receiveLoop_nil_conn {L : Libs} (w : World) :
  conn (c w) = None -> receiveLoop w = Crashed.
Proof.
  intros H. unfold receiveLoop, pending_input. rewrite H. cbn.
  unfold receiveLoop_iter, read_frame. now rewrite H.
Qed.

(** C5. On a fresh connection whose TLS dial fails, [Start] returns the
    error and leaves [connected] unset, but the deferred
    [go c.receiveLoop()] has run all the same: one receive loop is spawned,
    on a nil socket, where its first read panics. The claim says that no
    receive loop runs after a failed dial. *)
Theorem Start_failed_dial_spawns_receiveLoop (L : Libs) (dbg : bool) :
  exists w' : World,
    Start None (init_World dbg) = (Some ErrConnect, w')
    /\ connected (c w') = false
    /\ conn (c w') = None
    /\ loops (init_World dbg) = 0%nat /\ loops w' = 1%nat
    /\ receiveLoop w' = Crashed.
Proof.
  eexists. split; [apply Start_dial_failed; reflexivity|].
  repeat split.
Qed.

(** ** C7: the deferred delete reads the package counter *)

(** C7. A [SendAndWait] call is assigned id 1 and registers its slot under
    1. While it waits, the receive loop answers a PING, and that [Send]
    moves the package variable [requestID] to 2. The deadline passes: the
    call returns the context's error, and its deferred delete removes key 2.
    The slot of id 1 is still in the correlation table. The claim says that
    no entry is left on any exit path. *)
Theorem SendAndWait_cancelled_leaves_slot :
  exists (p' : PayloadHeader) (w' : World),
    SendAndWait (L := Wire.libs) id loop_turn (Some DeadlineExceeded) true
      GetStatusHeader "sender-0" "receiver-0" ns_receiver (started ping_frame)
    = SwReturned (None, Some (ErrCtx DeadlineExceeded)) p' w'
    /\ RequestId p' = 1
    /\ requestID w' = 2
    /\ resultChanMap (c w') !! 1 = Some 0%nat
    /\ resultChanMap (c (started ping_frame)) = ∅.
Proof.
  eexists _, _. split; [vm_compute; reflexivity|].
  repeat split; vm_compute; reflexivity.
Qed.

(** ** C1: the frame is sent before the slot is registered *)

(** C1. Line 84 of [SendAndWait] transmits the frame carrying id 1 while
    the correlation table has no entry for 1; the slot is only registered
    by line 91. When the receive loop gets the peer's reply to request 1 in
    between, it finds no slot and drops the reply: the call then registers
    its slot, the input is used up, the slot stays empty and the caller
    waits. The claim says that the slot is registered before, or together
    with, the transmission. *)
Theorem SendAndWait_transmits_before_registering :
  exists (p' : PayloadHeader) (w1 w2 : World),
    SendAndWait_send (L := Wire.libs) GetStatusHeader "sender-0" "receiver-0"
      ns_receiver (started (reply_frame 1)) = Ret (None, p', w1)
    /\ RequestId p' = 1
    /\ peer_reads 1 (written w1)
       = [Some (envelope "sender-0" "receiver-0" ns_receiver (header_json p'))]
    /\ resultChanMap (c w1) !! 1 = None
    /\ SendAndWait (L := Wire.libs) loop_turn id None false
         GetStatusHeader "sender-0" "receiver-0" ns_receiver (started (reply_frame 1))
       = SwWaiting p' w2
    /\ pending_input w2 = []
    /\ resultChanMap (c w2) !! 1 = Some 0%nat
    /\ chans w2 !! 0%nat = Some [].
Proof.
  eexists _, _, _. split; [vm_compute; reflexivity|].
  split; [reflexivity|]. split; [vm_compute; reflexivity|].
  split; [vm_compute; reflexivity|]. split; [vm_compute; reflexivity|].
  repeat split; vm_compute; reflexivity.
Qed.

(** ** C4: a reply delivered to the wrong call *)

(** C4. A [SendAndWait] call is assigned id 1. Before it reaches line 91
    another goroutine calls [Send], which is assigned id 2, so the first
    call registers its slot under the package counter's value 2. The peer's
    reply to request 2 is delivered to that slot, and the first call returns
    an envelope whose [requestId] is 2. The claim says that the returned
    envelope carries the id assigned to the call's own payload. *)
Theorem SendAndWait_returns_other_reply :
  exists (m : CastMessage) (pu : string) (p' : PayloadHeader) (w' : World),
    SendAndWait (L := Wire.libs)
      (other_Send GetStatusHeader "sender-0" "receiver-0" ns_receiver) loop_turn
      None false
      GetStatusHeader "sender-0" "receiver-0" ns_receiver (started (reply_frame 2))
    = SwReturned (Some m, None) p' w'
    /\ RequestId p' = 1
    /\ PayloadUtf8 m = Some pu
    /\ jsonparser_GetInt (Libs := Wire.libs) (list_byte_of_string pu) "requestId"
       = (2, true).
Proof.
  eexists _, _, _, _. split; [vm_compute; reflexivity|].
  split; [reflexivity|]. split; [reflexivity|]. vm_compute. reflexivity.
Qed.

(** ** C2: the end of the receive loop *)

Section LoopExit.
Context {L : Libs}.

Lemma receiveLoop_fuel_Exited (fuel : nat) : forall w w' : World,
  receiveLoop_fuel fuel w = Exited w' ->
  same_flags w w'
  /\ exists w1 : World, rtc iterates w w1 /\ receiveLoop_iter w1 = Break w'.
Proof.
  induction fuel as [|fuel IH]; intros w w' H; [discriminate|].
  cbn [receiveLoop_fuel] in H.
  destruct (receiveLoop_iter w) as [w1|w1| |] eqn:E; try discriminate.
  - apply IH in H as [Hf (w2 & Hrtc & Hb)]. split.
    + apply receiveLoop_iter_Continue in E as (_ & _ & _ & Hf1 & _).
      unfold same_flags in *. destruct Hf as (?&?&?), Hf1 as (?&?&?).
      repeat split; congruence.
    + exists w2. split; [|exact Hb]. eapply rtc_l; [exact E|exact Hrtc].
  - inversion H; subst. split; [|exists w; split; [apply rtc_refl|exact E]].
    apply receiveLoop_iter_Break in E as [(_&_&_&_&Hf) _]. exact Hf.
Qed.

(** C2 (as amended). When the receive loop returns, the connection's
    [connected] flag is what it was when the loop started: there is no
    closed state to go to. The loop has gone through some iterations and
    left by the one whose length-prefix read failed; that iteration writes
    a log line (with [debug] set) and nothing else: the correlation table
    and the buffer of every pending slot are as they were, nothing is
    written to the socket, so no waiting caller is told. *)
Theorem receiveLoop_exit_tells_nobody (w w' : World) :
  receiveLoop w = Exited w' ->
  connected (c w') = connected (c w)
  /\ exists w1 : World,
       rtc iterates w w1
       /\ receiveLoop_iter w1 = Break w'
       /\ resultChanMap (c w') = resultChanMap (c w1)
       /\ chans w' = chans w1
       /\ written w' = written w1
       /\ logs w' = logs w1 ++ (if debug (c w1) then [LogFailedBinaryRead] else []).
Proof.
  intros H. apply receiveLoop_fuel_Exited in H as [(Hc & _) (w1 & Hrtc & Hb)].
  split; [exact Hc|]. exists w1. split; [exact Hrtc|]. split; [exact Hb|].
  apply receiveLoop_iter_Break in Hb as ((_&_&_&(Ht&Hch&_)&_) & Ho & Hl).
  repeat split; try assumption.
  unfold written. destruct (conn (c w')), (conn (c w1)); cbn in Ho; congruence.
Qed.

End LoopExit.

(** C2, counterexample. The peer has closed the socket while one call
    waits on the slot of id 1. The receive loop returns; afterwards
    [connected] is still set, the slot is still registered and its buffer is
    still empty: the caller has been told nothing and can only leave through
    its own context. *)
Lemma receiveLoop_exit_leaves_caller_waiting :
  exists w' : World,
    resultChanMap (c w_pending) !! 1 = Some 0%nat
    /\ pending_input w_pending = []
    /\ receiveLoop (L := Wire.libs) w_pending = Exited w'
    /\ connected (c w') = true
    /\ resultChanMap (c w') !! 1 = Some 0%nat
    /\ chans w' !! 0%nat = Some []
    /\ SendAndWait_recv 0%nat w' = None.
Proof.
  eexists. split; [vm_compute; reflexivity|]. split; [reflexivity|].
  split; [vm_compute; reflexivity|].
  repeat split; vm_compute; reflexivity.
Qed.

(** C2, witness: the loop of [w_pending]. *)
Lemma receiveLoop_exit_tells_nobody_witness :
  exists w' : World,
    receiveLoop (L := Wire.libs) w_pending = Exited w'
    /\ connected (c w') = connected (c w_pending)
    /\ exists w1 : World,
         rtc (iterates (L := Wire.libs)) w_pending w1
         /\ receiveLoop_iter (L := Wire.libs) w1 = Break w'
         /\ resultChanMap (c w') = resultChanMap (c w1)
         /\ chans w' = chans w1
         /\ written w' = written w1
         /\ logs w' = logs w1 ++ (if debug (c w1) then [LogFailedBinaryRead] else []).
Proof.
  eexists. split; [vm_compute; reflexivity|].
  apply (receiveLoop_exit_tells_nobody (L := Wire.libs) w_pending).
  vm_compute; reflexivity.
Defined.

(** ** What Send writes *)

Section SendWrites.
Context {L : Libs} {P : Type} {HP : Payload P}.

Lemma written_set_conn (s : Socket) (w : World) :
  written (with_c (set_conn (Some s)) w) = outbound s.
Proof. reflexivity. Qed.

(** On a dialled connection [Send] returns. The payload it hands back has
    the new id; what it has put on the socket is one whole frame when it
    returns nil, the beginning of that frame when a write failed, and
    nothing when marshalling failed. With a socket that takes every write
    the only errors are the marshalling ones. *)
Lemma Send_run (payload : P) (src dst ns : string) (w : World) (s : Socket) :
  conn (c w) = Some s ->
  exists (err : option error) (w' : World),
    Send payload src dst ns w
    = Ret (err, SetRequestId payload (int_wrap (requestID w + 1)), w')
    /\ match json_Marshal (SetRequestId payload (int_wrap (requestID w + 1))) with
       | None => err = Some ErrMarshalJson /\ written w' = written w
       | Some json =>
           match proto_Marshal
                   (proto_SetDefaults
                      (envelope src dst ns (string_of_list_byte json))) with
           | None => err = Some ErrMarshalProto /\ written w' = written w
           | Some data =>
               (exists k : nat, written w' = written w ++ take k (frame data))
               /\ (err = None -> written w' = written w ++ frame data)
               /\ (accepts s (Z.of_nat (length (frame data))) -> err = None)
           end
       end.
Proof.
  intros Hc. unfold Send. cbn [requestID set_requestID add_issued].
  set (id := int_wrap (requestID w + 1)).
  destruct (json_Marshal (SetRequestId payload id)) as [json|].
  2:{ eexists _, _. split; [reflexivity|]. split; [reflexivity|].
      unfold written. cbn. reflexivity. }
  destruct (proto_Marshal _) as [data|].
  2:{ eexists _, _. split; [reflexivity|]. split; [reflexivity|].
      unfold written. cbn. reflexivity. }
  set (w1 := log _ _).
  assert (Hc1 : conn (c w1) = Some s) by (subst w1; now rewrite log_conn).
  assert (Hw1 : written w1 = written w).
  { unfold written. rewrite Hc1, Hc. reflexivity. }
  unfold conn_Write, deref, res_bind. rewrite Hc1. unfold frame.
  set (pre := PutUint32 (uint32 (Z.of_nat (length data)))).
  assert (Hws : written w = outbound s) by (unfold written; now rewrite Hc).
  unfold accepts. rewrite length_app. fold pre.
  unfold sock_Write at 1. destruct (wquota s) as [q|] eqn:Hq.
  - destruct (Z.leb_spec (Z.of_nat (length pre)) q) as [Hle|Hgt]; cbn [negb].
    + cbn [conn c with_c set_conn]. unfold sock_Write. cbn [wquota inbound outbound].
      destruct (Z.leb_spec (Z.of_nat (length data)) (q - Z.of_nat (length pre))) as [Hle2|Hgt2];
        cbn [negb]; eexists _, _; (split; [reflexivity|]);
        rewrite written_set_conn; cbn [outbound]; rewrite Hws, <- app_assoc.
      * split; [exists (length (pre ++ data)); now rewrite firstn_all|].
        split; reflexivity.
      * split; [|split; [discriminate|lia]].
        exists (length pre + Z.to_nat (q - Z.of_nat (length pre)))%nat.
        now rewrite take_app_add.
    + eexists _, _. split; [reflexivity|].
      rewrite written_set_conn. cbn [outbound]. rewrite Hws.
      split; [|split; [discriminate|lia]].
      exists (Z.to_nat q). rewrite take_app_le by lia. reflexivity.
  - cbn [negb conn c with_c set_conn]. unfold sock_Write. cbn [wquota inbound outbound negb].
    eexists _, _. split; [reflexivity|].
    rewrite written_set_conn. cbn [outbound]. rewrite Hws, <- app_assoc.
    split; [exists (length (pre ++ data)); now rewrite firstn_all|].
    split; reflexivity.
Qed.

End SendWrites.

(** ** C3: the keep-alive responder *)

Section KeepAlive.
Context {L : Libs}.


End KeepAlive.



(** ** C9: malformed input *)

Section Malformed.
Context {L : Libs}.

Lemma read_frame_prefix (w : World) (s : Socket) (n : Z) (body : list rd) :
  conn (c w) = Some s ->
  inbound s = (RByte <$> PutUint32 n) ++ body ->
  0 <= n < 2 ^ 32 ->
  ReadFull (inbound s) 4 = (PutUint32 n, false, body)
  /\ Uint32 (PutUint32 n) = n.
Proof.
  intros Hc Hin Hn. rewrite Hin. split; [|now apply Uint32_PutUint32].
  apply (ReadFull_bytes (PutUint32 n) body).
Qed.

(** A whole frame on the socket is read as its payload. *)
Lemma read_frame_whole (w : World) (s : Socket) (payload : list byte) (rest : list rd) :
  conn (c w) = Some s ->
  inbound s = (RByte <$> frame payload) ++ rest ->
  0 < Z.of_nat (length payload) < 2 ^ 32 ->
  read_frame w = Payload_read payload (consume rest w).
Proof.
  intros Hc Hin Hlen. unfold frame in Hin. rewrite fmap_app, <- app_assoc in Hin.
  rewrite uint32_small in Hin by lia.
  destruct (read_frame_prefix w s _ _ Hc Hin ltac:(lia)) as [H4 HU].
  unfold read_frame, consume. rewrite Hc, H4, HU. cbn [inbound outbound wquota].
  destruct (Z.eqb_spec (Z.of_nat (length payload)) 0) as [|_]; [lia|].
  rewrite ReadFull_bytes. rewrite Z.eqb_refl. reflexivity.
Qed.


End Malformed.


(** ** Request ids along a schedule (C6, C10) *)





Section Schedules.
Context {L : Libs} {P : Type} {HP : Payload P}.







End Schedules.


(** ** C10: a frame without a request id reaches no slot *)

Section NoRequestId.
Context {L : Libs} {P : Type} {HP : Payload P}.



End NoRequestId.

(** ** C8: framing *)

Section Framing.
Context {L : Libs} {P : Type} {HP : Payload P}.


End Framing.












(* ================================================================= *)
(** * Further properties of the connection *)

(** ** Start, again and again *)

Lemma Starts_connected (dials : list (option Socket)) : forall w : World,
  connected (c w) = true -> Starts dials w = w.
Proof.
  induction dials as [|d dials IH]; intros w H; [reflexivity|].
  cbn [Starts]. unfold Start. rewrite H. cbn. now apply IH.
Qed.

(** X1. On a connection that is not connected, a caller that retries [Start]
    dials until the first success and no further: each of these calls
    spawns one receive loop, the failed ones too; the socket kept is that
    of the first success, and the calls after it dial nothing, spawn
    nothing and change nothing. *)
Theorem Start_retried (dials : list (option Socket)) : forall w : World,
  connected (c w) = false ->
  loops (Starts dials w) = (loops w + attempts dials)%nat
  /\ connected (c (Starts dials w)) = bool_decide (is_Some (first_dialled dials))
  /\ (dials <> [] -> conn (c (Starts dials w)) = first_dialled dials)
  /\ requestID (Starts dials w) = requestID w
  /\ resultChanMap (c (Starts dials w)) = resultChanMap (c w).
Proof.
  induction dials as [|d dials IH]; intros w H.
  - cbn. rewrite Nat.add_0_r. repeat split; [exact H|contradiction].
  - cbn [Starts attempts first_dialled]. unfold Start at 1 2 3 4 5. rewrite H. cbn [negb].
    destruct d as [s|]; cbn [connect snd].
    + rewrite Starts_connected by reflexivity. cbn.
      repeat split; lia.
    + destruct (IH (add_loop (with_c (set_conn None) w)) H) as (Hl & Hc & Hconn & Hr & Hm).
      rewrite Hl, Hc, Hr, Hm. cbn. repeat split; try lia.
      intros _. destruct dials as [|d' dials']; [reflexivity|].
      apply Hconn. discriminate.
Qed.

(** Three dials: two fail, the third succeeds; a fourth call is ignored. *)
Lemma Start_retried_witness :
  loops (Starts [None; None; Some (peer_socket []); Some (peer_socket ping_frame)]
                (init_World false)) = 3%nat
  /\ connected (c (Starts [None; None; Some (peer_socket []); Some (peer_socket ping_frame)]
                          (init_World false))) = true
  /\ conn (c (Starts [None; None; Some (peer_socket []); Some (peer_socket ping_frame)]
                     (init_World false))) = Some (peer_socket []).
Proof.
  destruct (Start_retried [None; None; Some (peer_socket []); Some (peer_socket ping_frame)]
              (init_World false) eq_refl) as (Hl & Hc & Hconn & _).
  split; [exact Hl|]. split; [exact Hc|]. apply Hconn. discriminate.
Defined.

(** ** The errors of Send *)

Section SendErrors.
Context {L : Libs} {P : Type} {HP : Payload P}.

(** X2. On a dialled connection [Send] always returns, and its error tells the
    stage that failed: the JSON marshalling, the envelope marshalling, the
    write of the length prefix (the socket does not take four bytes) or the
    write of the envelope (it takes the prefix and not the rest); it is nil
    exactly when the socket takes the whole frame. In every case the
    request counter has moved on by one and the payload carries the new id:
    a failed [Send] uses up an id. Nothing is written when marshalling
    fails. *)
Theorem Send_error_by_stage (payload : P) (src dst ns : string) (w : World)
    (s : Socket) :
  conn (c w) = Some s ->
  exists (err : option error) (w' : World),
    Send payload src dst ns w
    = Ret (err, SetRequestId payload (int_wrap (requestID w + 1)), w')
    /\ requestID w' = int_wrap (requestID w + 1)
    /\ match json_Marshal (SetRequestId payload (int_wrap (requestID w + 1))) with
       | None => err = Some ErrMarshalJson /\ written w' = written w
       | Some json =>
           match proto_Marshal
                   (proto_SetDefaults
                      (envelope src dst ns (string_of_list_byte json))) with
           | None => err = Some ErrMarshalProto /\ written w' = written w
           | Some data =>
               (~ accepts s 4 -> err = Some ErrWriteBinary)
               /\ (accepts s 4 -> ~ accepts s (4 + Z.of_nat (length data)) ->
                   err = Some ErrSendData)
               /\ (accepts s (4 + Z.of_nat (length data)) ->
                   err = None /\ written w' = written w ++ frame data)
           end
       end.
Proof.
  intros Hc. unfold Send. cbn [requestID set_requestID add_issued].
  set (id := int_wrap (requestID w + 1)).
  destruct (json_Marshal (SetRequestId payload id)) as [json|].
  2:{ eexists _, _. split; [reflexivity|]. split; [reflexivity|].
      split; [reflexivity|]. unfold written. cbn. reflexivity. }
  destruct (proto_Marshal _) as [data|].
  2:{ eexists _, _. split; [reflexivity|]. split; [reflexivity|].
      split; [reflexivity|]. unfold written. cbn. reflexivity. }
  set (w1 := log _ _).
  assert (Hc1 : conn (c w1) = Some s) by (subst w1; now rewrite log_conn).
  assert (Hr1 : requestID w1 = id).
  { subst w1. unfold log. now destruct (debug _). }
  unfold conn_Write, deref, res_bind. rewrite Hc1. unfold frame.
  set (pre := PutUint32 (uint32 (Z.of_nat (length data)))).
  assert (Hpre : Z.of_nat (length pre) = 4) by reflexivity.
  assert (Hws : written w = outbound s) by (unfold written; now rewrite Hc).
  unfold accepts. unfold sock_Write at 1. destruct (wquota s) as [q|] eqn:Hq.
  - destruct (Z.leb_spec (Z.of_nat (length pre)) q) as [Hle|Hgt]; cbn [negb].
    + cbn [conn c with_c set_conn]. unfold sock_Write. cbn [wquota inbound outbound].
      destruct (Z.leb_spec (Z.of_nat (length data)) (q - Z.of_nat (length pre)))
        as [Hle2|Hgt2];
        cbn [negb]; eexists _, _; (split; [reflexivity|]); (split; [exact Hr1|]);
        rewrite written_set_conn; cbn [outbound]; rewrite Hws, <- app_assoc.
      * split; [intros; lia|]. split; [intros; lia|]. intros _. split; reflexivity.
      * split; [intros; lia|]. split; [reflexivity|]. intros; lia.
    + eexists _, _. split; [reflexivity|]. split; [exact Hr1|].
      split; [reflexivity|]. split; intros; lia.
  - cbn [negb conn c with_c set_conn]. unfold sock_Write. cbn [wquota inbound outbound negb].
    eexists _, _. split; [reflexivity|]. split; [exact Hr1|].
    rewrite written_set_conn. cbn [outbound]. rewrite Hws, <- app_assoc.
    split; [intros H; now destruct H|]. split; [intros _ H; now destruct H|].
    intros _. split; reflexivity.
Qed.

(** X3. On a connection that was never dialled ([c.conn] is nil), [Send]
    panics as soon as the payload and the envelope marshal: at its first
    write. When marshalling fails it returns that error before it touches
    the socket. [SendAndWait] panics with it. *)
Theorem Send_on_nil_conn (payload : P) (src dst ns : string) (w : World) :
  conn (c w) = None ->
  match json_Marshal (SetRequestId payload (int_wrap (requestID w + 1))) with
  | None =>
      exists w' : World,
        Send payload src dst ns w
        = Ret (Some ErrMarshalJson,
               SetRequestId payload (int_wrap (requestID w + 1)), w')
  | Some json =>
      match proto_Marshal
              (proto_SetDefaults (envelope src dst ns (string_of_list_byte json))) with
      | None =>
          exists w' : World,
            Send payload src dst ns w
            = Ret (Some ErrMarshalProto,
                   SetRequestId payload (int_wrap (requestID w + 1)), w')
      | Some _ =>
          Send payload src dst ns w = Panic
          /\ forall (between during : World -> World) (ctx : option ctx_err)
                    (prefer_ctx : bool),
               SendAndWait between during ctx prefer_ctx payload src dst ns w = SwPanic
      end
  end.
Proof.
  intros Hc. unfold SendAndWait, SendAndWait_send, Send.
  cbn [requestID set_requestID add_issued].
  destruct (json_Marshal _) as [json|]; [|eexists; reflexivity].
  destruct (proto_Marshal _) as [data|]; [|eexists; reflexivity].
  unfold conn_Write. rewrite log_conn. cbn [conn c add_issued set_requestID].
  rewrite Hc. cbn. split; reflexivity.
Qed.

End SendErrors.

(** A GET_STATUS request on a socket that takes ten more bytes: the prefix
    goes out, the envelope does not. *)
Lemma Send_error_by_stage_witness :
  exists w' : World,
    Send (L := Wire.libs) GetStatusHeader "sender-0" "receiver-0" ns_receiver
      (started_quota 10 [])
    = Ret (Some ErrSendData, mkPayloadHeader "GET_STATUS" 1, w')
    /\ requestID w' = 1.
Proof.
  destruct (Send_error_by_stage (L := Wire.libs) GetStatusHeader "sender-0" "receiver-0"
              ns_receiver (started_quota 10 [])
              (mkSocket [] [] (Some 10)) eq_refl) as (err & w' & HS & Hr & Hm).
  exists w'. split; [|exact Hr].
  assert (He : err = Some ErrSendData).
  { apply (proj1 (proj2 Hm)); unfold accepts; cbn;
      [lia|intros H; vm_compute in H; now apply H]. }
  rewrite He in HS. exact HS.
Defined.

(** A GET_STATUS request on a connection made by [NewConnection] and never
    started. *)
Lemma Send_on_nil_conn_witness :
  Send (L := Wire.libs) GetStatusHeader "sender-0" "receiver-0" ns_receiver
    (init_World false) = Panic.
Proof.
  exact (proj1 (Send_on_nil_conn (L := Wire.libs) GetStatusHeader "sender-0" "receiver-0"
                  ns_receiver (init_World false) eq_refl)).
Defined.

(** ** Debug logging *)

Section Debug.
Context {L : Libs}.

Lemma silent_log (e : LogEntry) (w : World) : silent (log e w) = silent w.
Proof. unfold log. now destruct (debug (c w)). Qed.

Lemma silent_silent (w : World) : silent (silent w) = silent w.
Proof. reflexivity. Qed.

Lemma silent_SetDebug (b : bool) (w : World) : silent (SetDebug b w) = silent w.
Proof. reflexivity. Qed.

Lemma Send_silent {P : Type} {HP : Payload P} (payload : P) (src dst ns : string)
    (w : World) :
  silent_res (Send payload src dst ns w)
  = silent_res (Send payload src dst ns (silent w)).
Proof.
  unfold Send. cbn [requestID set_requestID add_issued silent].
  destruct (json_Marshal _) as [json|]; [|reflexivity].
  destruct (proto_Marshal _) as [data|]; [|reflexivity].
  unfold conn_Write, log, deref, res_bind, sock_Write.
  destruct w as [rid pong [cn tbl dbg cnd] chs nxt lgs lps iss].
  cbn. destruct dbg, cn as [sk|]; cbn; try reflexivity;
    destruct (wquota sk) as [q|]; cbn; try reflexivity;
    destruct (Z.of_nat 4 <=? q); cbn; try reflexivity;
    destruct (Z.of_nat (length data) <=? q - Z.of_nat 4); reflexivity.
Qed.

Lemma chan_send_silent (ch : chan) (m : CastMessage) (w : World) :
  silent_hm (Ret (chan_send ch m w)) = silent_hm (Ret (chan_send ch m (silent w))).
Proof.
  unfold chan_send. cbn [chans silent].
  destruct (default [] (chans w !! ch)); reflexivity.
Qed.

Lemma handleMessage_silent (m : CastMessage) (h : PayloadHeader) (w : World) :
  silent_hm (handleMessage m h w) = silent_hm (handleMessage m h (silent w)).
Proof.
  unfold handleMessage, deref, res_bind.
  destruct (PayloadUtf8 m) as [pu|]; [|reflexivity].
  destruct (jsonparser_GetString _ _) as [t|].
  2:{ cbn [silent_hm]. now rewrite !silent_log. }
  destruct (String.eqb t "PING").
  - destruct (SourceId m) as [src|]; [|reflexivity].
    destruct (DestinationId m) as [dst|]; [|reflexivity].
    destruct (Namespace m) as [ns|]; [|reflexivity].
    pose proof (Send_silent (PongHeader w) src dst ns w) as HS.
    change (PongHeader (silent w)) with (PongHeader w).
    destruct (Send (PongHeader w) src dst ns w) as [[[e1 p1] w1]|];
      destruct (Send (PongHeader w) src dst ns (silent w)) as [[[e2 p2] w2]|];
      cbn [silent_res] in HS; try discriminate; [|reflexivity].
    assert (He : e1 = e2) by congruence.
    assert (Hp : p1 = p2) by congruence.
    assert (Hw : silent w1 = silent w2) by congruence.
    subst e2 p2. clear HS.
    assert (Hs : silent (set_PongHeader p1 w1) = silent (set_PongHeader p1 w2)).
    { change (set_PongHeader p1 (silent w1) = set_PongHeader p1 (silent w2)).
      now rewrite Hw. }
    destruct e1; cbn [silent_hm]; rewrite ?silent_log; now rewrite Hs.
  - destruct (jsonparser_GetInt _ _) as [rid ok].
    assert (Hm : forall w0, resultChanMap (c (if ok then w0 else log (LogNoRequestId pu) w0))
                            = resultChanMap (c w0)).
    { intros w0. destruct ok; [reflexivity|]. unfold log. now destruct (debug (c w0)). }
    assert (Hsl : forall w0, silent (if ok then w0 else log (LogNoRequestId pu) w0)
                             = silent w0).
    { intros w0. destruct ok; [reflexivity|apply silent_log]. }
    rewrite !Hm. change (resultChanMap (c (silent w))) with (resultChanMap (c w)).
    destruct (resultChanMap (c w) !! rid) as [ch|].
    + rewrite (chan_send_silent ch m (if ok then w else _)).
      rewrite (chan_send_silent ch m (if ok then silent w else _)).
      now rewrite !Hsl.
    + cbn [silent_hm]. now rewrite !Hsl.
Qed.

Lemma dispatch_silent (payload : list byte) (w : World) :
  silent_flow (dispatch payload w) = silent_flow (dispatch payload (silent w)).
Proof.
  unfold dispatch. destruct (proto_Unmarshal payload) as [m|].
  2:{ cbn [silent_flow]. now rewrite !silent_log. }
  destruct (DestinationId m) as [dst|]; [|reflexivity].
  destruct (SourceId m) as [src|]; [|reflexivity].
  destruct (Namespace m) as [ns|]; [|reflexivity].
  destruct (PayloadUtf8 m) as [pu|]; [|reflexivity].
  destruct (json_Unmarshal_PayloadHeader _) as [h|].
  2:{ cbn [silent_flow]. now rewrite !silent_log. }
  pose proof (handleMessage_silent m h (log (LogRecv dst src ns pu) w)) as H1.
  pose proof (handleMessage_silent m h (log (LogRecv dst src ns pu) (silent w))) as H2.
  rewrite !silent_log in H1, H2. rewrite silent_silent in H2. rewrite <- H2 in H1.
  destruct (handleMessage m h (log (LogRecv dst src ns pu) w)) as [[w1|]|];
    destruct (handleMessage m h (log (LogRecv dst src ns pu) (silent w))) as [[w2|]|];
    cbn [silent_hm] in H1; try discriminate; try reflexivity.
  assert (Hw : silent w1 = silent w2) by congruence.
  cbn [silent_flow]. now rewrite Hw.
Qed.

Lemma receiveLoop_iter_silent (w : World) :
  silent_flow (receiveLoop_iter w) = silent_flow (receiveLoop_iter (silent w)).
Proof.
  unfold receiveLoop_iter, read_frame. cbn [conn c silent].
  destruct (conn (c w)) as [s|]; [|reflexivity].
  destruct (ReadFull (inbound s) 4) as [[b err] rest].
  destruct err; [cbn [silent_flow]; now rewrite !silent_log|].
  cbn [inbound outbound wquota].
  destruct (Uint32 b =? 0); [cbn [silent_flow]; now rewrite !silent_log|].
  destruct (ReadFull rest (Uint32 b)) as [[payload err] rest'].
  destruct err; [cbn [silent_flow]; now rewrite !silent_log|].
  destruct (negb _); [cbn [silent_flow]; now rewrite !silent_log|].
  rewrite dispatch_silent. reflexivity.
Qed.

Lemma receiveLoop_fuel_silent (fuel : nat) : forall w : World,
  silent_end (receiveLoop_fuel fuel w) = silent_end (receiveLoop_fuel fuel (silent w)).
Proof.
  induction fuel as [|fuel IH]; intros w; [reflexivity|].
  cbn [receiveLoop_fuel]. pose proof (receiveLoop_iter_silent w) as H.
  destruct (receiveLoop_iter w) as [w1|w1| |];
    destruct (receiveLoop_iter (silent w)) as [w2|w2| |];
    cbn [silent_flow] in H; try discriminate; try reflexivity.
  - assert (Hw : silent w1 = silent w2) by congruence.
    rewrite (IH w1), (IH w2). now rewrite Hw.
  - assert (Hw : silent w1 = silent w2) by congruence.
    cbn [silent_end]. now rewrite Hw.
Qed.

(** X4. [SetDebug] changes what is logged and nothing else. Whatever the flag
    is set to, [Send] returns the same error, leaves the payload with the
    same id and leaves the same program state (counter, table, channels,
    socket) but for the log; and the receive loop ends the same way, in the
    same state but for the log. *)
Theorem SetDebug_only_changes_the_log (b : bool) (w : World) :
  (forall (P : Type) (HP : Payload P) (payload : P) (src dst ns : string),
     silent_res (Send payload src dst ns (SetDebug b w))
     = silent_res (Send payload src dst ns w))
  /\ silent_end (receiveLoop (SetDebug b w)) = silent_end (receiveLoop w)
  /\ silent (SetDebug b w) = silent w.
Proof.
  split; [|split; [|reflexivity]].
  - intros P HP payload src dst ns.
    rewrite (Send_silent payload src dst ns (SetDebug b w)).
    now rewrite (Send_silent payload src dst ns w).
  - unfold receiveLoop.
    change (pending_input (SetDebug b w)) with (pending_input w).
    rewrite (receiveLoop_fuel_silent _ (SetDebug b w)).
    now rewrite (receiveLoop_fuel_silent _ w).
Qed.

End Debug.

(** ** What the loop does with a decoded frame *)

Section Delivery.
Context {L : Libs}.

(** A decoded frame goes to [handleMessage], in a state that differs from
    the one before by the input read and the log. *)
Lemma receiveLoop_iter_decoded (w : World) (s : Socket) (payload : list byte)
    (rest : list rd) (m : CastMessage) :
  conn (c w) = Some s ->
  inbound s = (RByte <$> frame payload) ++ rest ->
  decodes payload m ->
  exists (h : PayloadHeader) (w0 : World),
    quiet w w0 /\ written w0 = written w /\ pending_input w0 = rest
    /\ receiveLoop_iter w
       = match handleMessage m h w0 with
         | Ret (Some w1) => Continue w1
         | Ret None => Blocked
         | Panic => Panicked
         end.
Proof.
  intros Hc Hin (Hlen & Hun & [dst Hd] & [src Hs] & [ns Hn] & pu & Hp & [h Hh]).
  exists h, (log (LogRecv dst src ns pu) (consume rest w)).
  assert (Hq : quiet w (consume rest w)).
  { unfold consume. rewrite Hc. apply quiet_set_conn. }
  split; [eapply quiet_trans; [exact Hq|apply quiet_log]|].
  split; [unfold written; rewrite log_conn; unfold consume; now rewrite Hc|].
  split; [rewrite log_pending_input; unfold consume, pending_input; now rewrite Hc|].
  unfold receiveLoop_iter. rewrite (read_frame_whole w s payload rest Hc Hin Hlen).
  unfold dispatch. now rewrite Hun, Hd, Hs, Hn, Hp, Hh.
Qed.

Lemma handleMessage_untyped (m : CastMessage) (h : PayloadHeader) (w : World) :
  untyped m ->
  exists w1 : World,
    handleMessage m h w = Ret (Some w1) /\ quiet w w1
    /\ written w1 = written w /\ pending_input w1 = pending_input w.
Proof.
  intros (pu & Hp & Ht). unfold handleMessage. rewrite Hp. cbn [deref res_bind].
  rewrite Ht. eexists. split; [reflexivity|]. split; [apply quiet_log|].
  unfold written. now rewrite log_pending_input, log_conn.
Qed.

(** What [handleMessage] does with a reply: the lookup of its id in the
    table decides. *)
Lemma handleMessage_reply (r : Z) (m : CastMessage) (h : PayloadHeader) (w : World) :
  reply_for r m ->
  exists w0 : World,
    quiet w w0 /\ written w0 = written w /\ pending_input w0 = pending_input w
    /\ handleMessage m h w
       = match resultChanMap (c w) !! r with
         | Some ch => Ret (chan_send ch m w0)
         | None => Ret (Some w0)
         end.
Proof.
  intros (pu & t & Hp & Ht & Hne & Hr). unfold handleMessage.
  rewrite Hp. cbn [deref res_bind]. rewrite Ht.
  destruct (String.eqb_spec t "PING") as [|_]; [contradiction|].
  destruct (jsonparser_GetInt _ _) as [rid ok]. cbn [fst] in Hr. subst rid.
  exists (if ok then w else log (LogNoRequestId pu) w).
  assert (Hq : quiet w (if ok then w else log (LogNoRequestId pu) w)).
  { destruct ok; [apply quiet_refl|apply quiet_log]. }
  split; [exact Hq|].
  split; [unfold written; destruct ok; [reflexivity|now rewrite log_conn]|].
  split; [destruct ok; [reflexivity|apply log_pending_input]|].
  destruct Hq as (_ & _ & _ & (Hm & _) & _). now rewrite Hm.
Qed.

(** X5. A decoded frame without a "type", or a reply whose id has no slot in
    the correlation table, is dropped: the iteration ends with [continue],
    the frame consumed and nothing changed but the log; no channel gets
    anything, nothing is sent, the counter stays. *)
Theorem unsolicited_frame_is_dropped (w : World) (s : Socket) (payload : list byte)
    (rest : list rd) (m : CastMessage) :
  conn (c w) = Some s ->
  inbound s = (RByte <$> frame payload) ++ rest ->
  decodes payload m ->
  untyped m \/ (exists r : Z, reply_for r m /\ resultChanMap (c w) !! r = None) ->
  exists w' : World,
    receiveLoop_iter w = Continue w'
    /\ quiet w w' /\ written w' = written w /\ pending_input w' = rest.
Proof.
  intros Hc Hin Hdec Hcase.
  destruct (receiveLoop_iter_decoded w s payload rest m Hc Hin Hdec)
    as (h & w0 & Hq0 & Hw0 & Hp0 & Hit).
  rewrite Hit. destruct Hcase as [Hu|(r & Hr & Hnone)].
  - destruct (handleMessage_untyped m h w0 Hu) as (w1 & -> & Hq1 & Hw1 & Hp1).
    exists w1. split; [reflexivity|]. split; [eapply quiet_trans; eauto|].
    split; congruence.
  - destruct (handleMessage_reply r m h w0 Hr) as (w1 & Hq1 & Hw1 & Hp1 & ->).
    assert (Hm : resultChanMap (c w0) = resultChanMap (c w)) by apply Hq0.
    rewrite Hm, Hnone. exists w1. split; [reflexivity|].
    split; [eapply quiet_trans; eauto|]. split; congruence.
Qed.

Lemma receiveLoop_iter_delivers (w : World) (s : Socket) (payload : list byte)
    (rest : list rd) (m : CastMessage) (r : Z) (ch : chan) :
  conn (c w) = Some s ->
  inbound s = (RByte <$> frame payload) ++ rest ->
  decodes payload m ->
  reply_for r m ->
  resultChanMap (c w) !! r = Some ch ->
  default [] (chans w !! ch) = [] ->
  exists w' : World,
    receiveLoop_iter w = Continue w'
    /\ chans w' = <[ch := [m]]> (chans w)
    /\ resultChanMap (c w') = resultChanMap (c w)
    /\ requestID w' = requestID w
    /\ written w' = written w /\ pending_input w' = rest.
Proof.
  intros Hc Hin Hdec Hr Hslot Hempty.
  destruct (receiveLoop_iter_decoded w s payload rest m Hc Hin Hdec)
    as (h & w0 & Hq0 & Hw0 & Hp0 & Hit).
  destruct (handleMessage_reply r m h w0 Hr) as (w1 & Hq1 & Hw1 & Hp1 & Hhm).
  rewrite Hit, Hhm.
  destruct (quiet_trans _ _ _ Hq0 Hq1) as (Hrid & _ & _ & (Hm & Hch & _) & _).
  assert (Hm0 : resultChanMap (c w0) = resultChanMap (c w)) by apply Hq0.
  rewrite Hm0, Hslot. unfold chan_send. rewrite Hch, Hempty.
  eexists. split; [reflexivity|].
  unfold written, pending_input in *. cbn.
  repeat split; congruence.
Qed.

(** X6. A reply whose id has a slot with an empty buffer is delivered: the
    iteration ends with [continue], that slot's buffer holds the envelope
    and every other channel is as it was; the table, the counter and the
    bytes written are unchanged. *)
Theorem reply_is_delivered_to_its_slot (w : World) (s : Socket) (payload : list byte)
    (rest : list rd) (m : CastMessage) (r : Z) (ch : chan) :
  conn (c w) = Some s ->
  inbound s = (RByte <$> frame payload) ++ rest ->
  decodes payload m ->
  reply_for r m ->
  resultChanMap (c w) !! r = Some ch ->
  default [] (chans w !! ch) = [] ->
  exists w' : World,
    receiveLoop_iter w = Continue w'
    /\ chans w' = <[ch := [m]]> (chans w)
    /\ resultChanMap (c w') = resultChanMap (c w)
    /\ requestID w' = requestID w
    /\ written w' = written w /\ pending_input w' = rest.
Proof. apply receiveLoop_iter_delivers. Qed.

(** X7. Two replies with the same id, one after the other, for a slot whose
    owner has not read yet: the first fills the slot's one-place buffer, the
    second makes the loop wait on the channel. The receive loop reads no
    further frame until the owner receives. *)
Theorem second_reply_stalls_the_loop (w : World) (s : Socket) (p1 p2 : list byte)
    (rest : list rd) (m1 m2 : CastMessage) (r : Z) (ch : chan) :
  conn (c w) = Some s ->
  inbound s = (RByte <$> frame p1) ++ (RByte <$> frame p2) ++ rest ->
  decodes p1 m1 -> decodes p2 m2 ->
  reply_for r m1 -> reply_for r m2 ->
  resultChanMap (c w) !! r = Some ch ->
  default [] (chans w !! ch) = [] ->
  receiveLoop w = Stuck.
Proof.
  intros Hc Hin Hd1 Hd2 Hr1 Hr2 Hslot Hempty.
  destruct (receiveLoop_iter_delivers w s p1 ((RByte <$> frame p2) ++ rest)
              m1 r ch Hc Hin Hd1 Hr1 Hslot Hempty)
    as (w1 & Hit1 & Hch1 & Hm1 & _ & _ & Hp1).
  assert (Hfuel : exists n, length (pending_input w) = S n).
  { unfold pending_input. rewrite Hc, Hin. unfold frame.
    rewrite fmap_app, <- app_assoc. cbn. eauto. }
  destruct Hfuel as [n Hn]. unfold receiveLoop. rewrite Hn.
  cbn [receiveLoop_fuel]. rewrite Hit1.
  assert (Hc1 : exists s1, conn (c w1) = Some s1 /\ inbound s1 = (RByte <$> frame p2) ++ rest).
  { unfold pending_input in Hp1. destruct (conn (c w1)) as [s1|]; [eauto|].
    exfalso. unfold frame in Hp1. rewrite fmap_app, <- app_assoc in Hp1. discriminate. }
  destruct Hc1 as (s1 & Hc1 & Hin1).
  destruct (receiveLoop_iter_decoded w1 s1 p2 rest m2 Hc1 Hin1 Hd2)
    as (h & w0 & Hq0 & _ & _ & Hit2).
  destruct (handleMessage_reply r m2 h w0 Hr2) as (w2 & Hq2 & _ & _ & Hhm).
  rewrite Hit2, Hhm.
  assert (Hm0 : resultChanMap (c w0) = resultChanMap (c w1)) by apply Hq0.
  destruct (quiet_trans _ _ _ Hq0 Hq2) as (_ & _ & _ & (_ & Hch & _) & _).
  rewrite Hm0, Hm1, Hslot. unfold chan_send. rewrite Hch, Hch1.
  rewrite lookup_insert_eq. reflexivity.
Qed.

End Delivery.

Ltac decode_reply :=
  split;
  [ unfold decodes; split; [vm_compute; split; reflexivity|];
    split; [vm_compute; reflexivity|];
    do 3 (split; [vm_compute; eauto|]);
    eexists; split; [reflexivity|]; vm_compute; eauto
  | eexists _, "RECEIVER_STATUS"; split; [reflexivity|];
    split; [vm_compute; reflexivity|]; split; [discriminate|];
    vm_compute; reflexivity ].

Lemma reply_1_decodes :
  decodes (L := Wire.libs) (reply_bytes 1) (reply 1)
  /\ reply_for (L := Wire.libs) 1 (reply 1).
Proof. decode_reply. Qed.

Lemma reply_7_decodes :
  decodes (L := Wire.libs) (reply_bytes 7) (reply 7)
  /\ reply_for (L := Wire.libs) 7 (reply 7).
Proof. decode_reply. Qed.

Lemma unsolicited_frame_is_dropped_witness :
  exists w' : World,
    receiveLoop_iter (L := Wire.libs) (started (reply_frame 7)) = Continue w'
    /\ quiet (started (reply_frame 7)) w'
    /\ written w' = written (started (reply_frame 7))
    /\ pending_input w' = [].
Proof.
  apply (unsolicited_frame_is_dropped (L := Wire.libs) (started (reply_frame 7))
           (socket_of (started (reply_frame 7))) (reply_bytes 7) [] (reply 7)).
  - reflexivity.
  - vm_compute. reflexivity.
  - apply reply_7_decodes.
  - right. exists 7. split; [apply reply_7_decodes|]. vm_compute. reflexivity.
Defined.

Lemma reply_is_delivered_to_its_slot_witness :
  exists w' : World,
    receiveLoop_iter (L := Wire.libs) (pending_on (reply_frame 1)) = Continue w'
    /\ chans w' = <[0%nat := [reply 1]]> (chans (pending_on (reply_frame 1)))
    /\ resultChanMap (c w') = resultChanMap (c (pending_on (reply_frame 1)))
    /\ requestID w' = requestID (pending_on (reply_frame 1))
    /\ written w' = written (pending_on (reply_frame 1))
    /\ pending_input w' = [].
Proof.
  apply (reply_is_delivered_to_its_slot (L := Wire.libs) (pending_on (reply_frame 1))
           (socket_of (pending_on (reply_frame 1))) (reply_bytes 1) [] (reply 1) 1 0%nat).
  - reflexivity.
  - vm_compute. reflexivity.
  - apply reply_1_decodes.
  - apply reply_1_decodes.
  - vm_compute. reflexivity.
  - vm_compute. reflexivity.
Defined.

Lemma second_reply_stalls_the_loop_witness :
  receiveLoop (L := Wire.libs) (pending_on (reply_frame 1 ++ reply_frame 1 ++ ping_frame))
  = Stuck.
Proof.
  apply (second_reply_stalls_the_loop (L := Wire.libs)
           (pending_on (reply_frame 1 ++ reply_frame 1 ++ ping_frame))
           (socket_of (pending_on (reply_frame 1 ++ reply_frame 1 ++ ping_frame)))
           (reply_bytes 1) (reply_bytes 1) (RByte <$> ping_frame) (reply 1) (reply 1) 1 0%nat).
  - reflexivity.
  - vm_compute. reflexivity.
  - apply reply_1_decodes.
  - apply reply_1_decodes.
  - apply reply_1_decodes.
  - apply reply_1_decodes.
  - vm_compute. reflexivity.
  - vm_compute. reflexivity.
Defined.

(** ** The loop and the stream *)

Section Stream.
Context {L : Libs}.

Lemma ReadFull_suffix (s : list rd) : forall (n : Z) (bs : list byte) (e : bool) (r : list rd),
  ReadFull s n = (bs, e, r) -> exists pre : list rd, s = pre ++ r.
Proof.
  induction s as [|x s IH]; intros n bs e r H; cbn [ReadFull] in H.
  - destruct (n <=? 0); inversion H; subst; now exists [].
  - destruct (n <=? 0); [inversion H; subst; now exists []|].
    destruct x as [b|].
    + destruct (ReadFull s (n - 1)) as [[bs' e'] r'] eqn:E. inversion H; subst.
      destruct (IH _ _ _ _ E) as [pre ->]. now exists (RByte b :: pre).
    + inversion H; subst. now exists [RErr].
Qed.

Lemma ReadFull_short_clean (s : list rd) : forall (n : Z) (bs : list byte) (r : list rd),
  clean s -> ReadFull s n = (bs, true, r) -> r = [].
Proof.
  induction s as [|x s IH]; intros n bs r Hc H; cbn [ReadFull] in H.
  - destruct (n <=? 0); inversion H; reflexivity.
  - destruct (n <=? 0); [inversion H|].
    apply Forall_cons in Hc as [Hx Hc]. destruct x as [b|]; [|contradiction].
    destruct (ReadFull s (n - 1)) as [[bs' e'] r'] eqn:E. inversion H; subst.
    eapply IH; eauto.
Qed.

Lemma clean_suffix (pre r : list rd) : clean (pre ++ r) -> clean r.
Proof. unfold clean. rewrite Forall_app. tauto. Qed.

Lemma read_frame_stream (w : World) :
  match read_frame w with
  | Payload_read _ w' | No_frame (Continue w') =>
      exists pre : list rd, pending_input w = pre ++ pending_input w'
  | No_frame (Break w') =>
      (exists pre : list rd, pending_input w = pre ++ pending_input w')
      /\ (clean (pending_input w) -> pending_input w' = [])
  | No_frame _ => True
  end.
Proof.
  unfold read_frame, pending_input.
  destruct (conn (c w)) as [s|]; [|exact I].
  destruct (ReadFull (inbound s) 4) as [[b e] r] eqn:E1.
  destruct (ReadFull_suffix _ _ _ _ _ E1) as [pre1 H1].
  destruct e.
  { rewrite log_conn. cbn. split; [eauto|].
    intros Hc. eapply ReadFull_short_clean; eauto. }
  destruct (Uint32 b =? 0); [rewrite log_conn; cbn; eauto|].
  cbn [inbound outbound wquota].
  destruct (ReadFull r (Uint32 b)) as [[payload e2] r2] eqn:E2.
  destruct (ReadFull_suffix _ _ _ _ _ E2) as [pre2 H2].
  assert (Hs : inbound s = (pre1 ++ pre2) ++ r2) by (rewrite <- app_assoc; congruence).
  destruct e2; [rewrite log_conn; cbn; eauto|].
  destruct (negb _); [rewrite log_conn; cbn; eauto|]. cbn. eauto.
Qed.

Lemma receiveLoop_iter_stream (w : World) :
  match receiveLoop_iter w with
  | Continue w' => exists pre : list rd, pending_input w = pre ++ pending_input w'
  | Break w' => clean (pending_input w) -> pending_input w' = []
  | _ => True
  end.
Proof.
  unfold receiveLoop_iter. pose proof (read_frame_stream w) as Hr.
  destruct (read_frame w) as [payload w1|[w1|w1| |]]; try tauto.
  destruct (dispatch payload w1) as [w2|w2| |] eqn:E; try exact I.
  - apply dispatch_effect in E as (_ & _ & _ & _ & Hp). now rewrite Hp.
  - now apply dispatch_no_Break in E.
Qed.

Lemma receiveLoop_fuel_drains (fuel : nat) : forall w w' : World,
  clean (pending_input w) -> receiveLoop_fuel fuel w = Exited w' ->
  pending_input w' = [].
Proof.
  induction fuel as [|fuel IH]; intros w w' Hc H; [discriminate|].
  cbn [receiveLoop_fuel] in H. pose proof (receiveLoop_iter_stream w) as Hs.
  destruct (receiveLoop_iter w) as [w1|w1| |]; try discriminate.
  - destruct Hs as [pre Hs]. apply (IH w1 w'); [|exact H].
    rewrite Hs in Hc. eapply clean_suffix; eauto.
  - inversion H; subst. auto.
Qed.

(** X8. On a stream without read errors the receive loop comes to an end
    (it returns, waits on a full channel or panics), and when it returns it
    has read the stream to its end: it never leaves with input unread. *)
Theorem receiveLoop_returns_only_at_end_of_stream (w : World) :
  clean (pending_input w) ->
  receiveLoop w <> OutOfFuel
  /\ forall w' : World, receiveLoop w = Exited w' -> pending_input w' = [].
Proof.
  intros Hc. split; [apply receiveLoop_total|].
  intros w' H. eapply receiveLoop_fuel_drains; eauto.
Qed.

(** X9. The loop keeps to the frame boundaries whatever the frames hold: given
    [k] whole frames on the stream, [k] iterations consume exactly these
    frames, unless before that the loop waits on a full channel or
    panics. No content of a frame makes the loop return or read into the
    next frame. *)
Theorem receiveLoop_keeps_frame_boundaries (payloads : list (list byte)) :
  forall (w : World) (rest : list rd),
  pending_input w = (RByte <$> frames payloads) ++ rest ->
  Forall (fun payload => 0 < Z.of_nat (length payload) < 2 ^ 32) payloads ->
  pending_input (turns (length payloads) w) = rest
  \/ receiveLoop_iter (turns (length payloads) w) = Blocked
  \/ receiveLoop_iter (turns (length payloads) w) = Panicked.
Proof.
  induction payloads as [|p ps IH]; intros w rest Hin Hall.
  - left. exact Hin.
  - apply Forall_cons in Hall as [Hp Hall].
    cbn [length turns].
    assert (Hin' : pending_input w = (RByte <$> frame p) ++ (RByte <$> frames ps) ++ rest).
    { rewrite Hin. unfold frames. cbn [fmap list_fmap concat].
      now rewrite fmap_app, <- app_assoc. }
    assert (Hc : exists s, conn (c w) = Some s /\ inbound s = pending_input w).
    { unfold pending_input in *. destruct (conn (c w)) as [s|]; [eauto|].
      exfalso. unfold frame in Hin'. rewrite fmap_app, <- app_assoc in Hin'.
      pose proof (PutUint32_length (uint32 (Z.of_nat (length p)))) as Hl.
      destruct (PutUint32 _); [discriminate Hl|discriminate Hin']. }
    destruct Hc as (s & Hc & Hs). rewrite Hin' in Hs.
    destruct (receiveLoop_iter w) as [w1|w1| |] eqn:E; auto.
    + apply IH; [|exact Hall].
      unfold receiveLoop_iter in E. rewrite (read_frame_whole w s p _ Hc Hs Hp) in E.
      apply dispatch_effect in E as (_ & _ & _ & _ & Hpi). rewrite Hpi.
      unfold consume, pending_input. now rewrite Hc.
    + exfalso. unfold receiveLoop_iter in E.
      rewrite (read_frame_whole w s p _ Hc Hs Hp) in E.
      now apply dispatch_no_Break in E.
Qed.

End Stream.

Lemma receiveLoop_returns_only_at_end_of_stream_witness :
  exists w' : World,
    receiveLoop (L := Wire.libs) (started (reply_frame 7 ++ ping_frame ++ [x00; x00]))
    = Exited w'
    /\ pending_input w' = [].
Proof.
  destruct (receiveLoop (L := Wire.libs) (started (reply_frame 7 ++ ping_frame ++ [x00; x00])))
    as [w'| | |] eqn:E.
  - exists w'. split; [reflexivity|].
    apply (receiveLoop_returns_only_at_end_of_stream (L := Wire.libs)
             (started (reply_frame 7 ++ ping_frame ++ [x00; x00]))); [|exact E].
    change (pending_input (started (reply_frame 7 ++ ping_frame ++ [x00; x00])))
      with (RByte <$> (reply_frame 7 ++ ping_frame ++ [x00; x00])).
    unfold clean. rewrite Forall_fmap. apply Forall_forall. intros b _. discriminate.
  - vm_compute in E. discriminate E.
  - vm_compute in E. discriminate E.
  - vm_compute in E. discriminate E.
Defined.

Lemma receiveLoop_keeps_frame_boundaries_witness :
  pending_input (turns (L := Wire.libs) 3
                   (started (frames [garbage; reply_bytes 7; not_json_payload] ++ [x00; x00])))
  = [RByte x00; RByte x00].
Proof.
  destruct (receiveLoop_keeps_frame_boundaries (L := Wire.libs)
              [garbage; reply_bytes 7; not_json_payload]
              (started (frames [garbage; reply_bytes 7; not_json_payload] ++ [x00; x00]))
              [RByte x00; RByte x00]) as [H|[H|H]].
  - vm_compute. reflexivity.
  - repeat constructor; vm_compute; reflexivity.
  - exact H.
  - vm_compute in H. discriminate H.
  - vm_compute in H. discriminate H.
Defined.

(** ** After the loop has returned *)

Section NoRestart.
Context {L : Libs} {P : Type} {HP : Payload P}.

Lemma exec_after_exit (a : action P) (s s' : Sys) :
  connected (c (world s)) = true -> loop_exited s = true ->
  exec a s = Ret s' ->
  loop_exited s' = true /\ connected (c (world s')) = true
  /\ loops (world s') = loops (world s)
  /\ pending_input (world s') = pending_input (world s).
Proof.
  intros Hc Hx Hex.
  destruct a as [dial|payload src dst ns|tid payload src dst ns|tid|tid|tid e|tid|];
    cbn [exec] in Hex.
  - unfold Start in Hex. rewrite Hc in Hex. cbn in Hex. inversion Hex; subst; cbn.
    rewrite Hx, Nat.eqb_refl. auto.
  - unfold res_bind in Hex.
    destruct (Send payload src dst ns (world s)) as [[[err p'] w']|] eqn:E; [|discriminate].
    inversion Hex; subst; cbn.
    apply Send_effect in E as (_ & _ & _ & _ & _ & (Hcn & _ & Hl) & Hp).
    repeat split; congruence.
  - destruct (calls s !! tid); [inversion Hex; subst; auto|].
    unfold res_bind, SendAndWait_send in Hex.
    destruct (Send payload src dst ns (world s)) as [[[err p'] w']|] eqn:E; [|discriminate].
    apply Send_effect in E as (_ & _ & _ & _ & _ & (Hcn & _ & Hl) & Hp).
    destruct err; inversion Hex; subst; cbn; repeat split; congruence.
  - destruct (calls s !! tid) as [[| | |]|]; inversion Hex; subst; auto.
  - destruct (calls s !! tid) as [[|ch| |]|]; try (inversion Hex; subst; auto; fail).
    unfold SendAndWait_recv in Hex.
    destruct (default [] (chans (world s) !! ch)); inversion Hex; subst; auto.
  - destruct (calls s !! tid) as [[| | |]|]; inversion Hex; subst; auto.
  - destruct (calls s !! tid) as [[| | |]|]; inversion Hex; subst; auto.
  - rewrite Hx in Hex. cbn in Hex. inversion Hex; subst; auto.
Qed.

(** X10. Once the receive loop has returned on a connected connection, nothing
    starts it again: no operation clears [connected], so every later
    [Start] returns nil without dialling and without spawning a loop, and
    whatever the callers do afterwards no further input is read. *)
Theorem returned_loop_is_never_restarted (acts : list (action P)) :
  forall s s' : Sys,
  connected (c (world s)) = true -> loop_exited s = true ->
  run acts s = Ret s' ->
  loop_exited s' = true /\ connected (c (world s')) = true
  /\ loops (world s') = loops (world s)
  /\ pending_input (world s') = pending_input (world s).
Proof.
  induction acts as [|a acts IH]; intros s s' Hc Hx Hrun; cbn [run] in Hrun.
  - inversion Hrun; subst; auto.
  - unfold res_bind in Hrun. destruct (exec a s) as [s1|] eqn:E; [|discriminate].
    destruct (exec_after_exit a s s1 Hc Hx E) as (Hx1 & Hc1 & Hl1 & Hp1).
    destruct (IH s1 s' Hc1 Hx1 Hrun) as (? & ? & ? & ?).
    repeat split; congruence.
Qed.

End NoRestart.

Lemma returned_loop_is_never_restarted_witness :
  exists s' : Sys,
    run (L := Wire.libs)
        [ AStart (Some (peer_socket ping_frame)); ALoop;
          ASend GetStatusHeader "sender-0" "receiver-0" ns_receiver; ALoop ]
        (sys_after [AStart (Some (peer_socket [])); ALoop]) = Ret s'
    /\ loop_exited s' = true /\ connected (c (world s')) = true
    /\ loops (world s') = 1%nat /\ pending_input (world s') = [].
Proof.
  destruct (run (L := Wire.libs)
              [ AStart (Some (peer_socket ping_frame)); ALoop;
                ASend GetStatusHeader "sender-0" "receiver-0" ns_receiver; ALoop ]
              (sys_after [AStart (Some (peer_socket [])); ALoop])) as [s'|] eqn:E.
  - exists s'. split; [reflexivity|].
    apply (returned_loop_is_never_restarted (L := Wire.libs) _ _ s'
             (eq_refl : connected (c (world (sys_after [AStart (Some (peer_socket [])); ALoop]))) = true)
             (eq_refl : loop_exited (sys_after [AStart (Some (peer_socket [])); ALoop]) = true)
             E).
  - vm_compute in E. discriminate E.
Defined.

(** ** SendAndWait when nothing runs between its Send and its registration *)

Section Correlation.
Context {L : Libs}.

Lemma handleMessage_chans (m : CastMessage) (h : PayloadHeader) (w w' : World) :
  handleMessage m h w = Ret (Some w') ->
  chans w' = chans w
  \/ exists (r : Z) (ch : chan),
       carried_id m = Some r /\ resultChanMap (c w) !! r = Some ch
       /\ chans w' = <[ch := [m]]> (chans w).
Proof.
  unfold handleMessage, carried_id, deref, res_bind.
  destruct (PayloadUtf8 m) as [pu|]; [|discriminate].
  destruct (jsonparser_GetString _ _) as [t|].
  2:{ intros H; inversion H; subst. left. apply quiet_log. }
  destruct (String.eqb t "PING").
  - destruct (SourceId m) as [src|]; [|discriminate].
    destruct (DestinationId m) as [dst|]; [|discriminate].
    destruct (Namespace m) as [ns|]; [|discriminate].
    destruct (Send (PongHeader w) src dst ns w) as [[[err pong] w1]|] eqn:ES; [|discriminate].
    apply Send_effect in ES as (_ & _ & _ & _ & (_ & Hch & _) & _).
    destruct err; intros H; inversion H; subst; left.
    + assert (Hq : chans (log (LogPingFailed e) (set_PongHeader pong w1))
                   = chans (set_PongHeader pong w1)) by apply quiet_log.
      rewrite Hq. exact Hch.
    + exact Hch.
  - destruct (jsonparser_GetInt _ _) as [rid ok]. cbn [fst].
    set (w0 := if ok then w else log (LogNoRequestId pu) w).
    assert (Hq : quiet w w0) by (subst w0; destruct ok; [apply quiet_refl|apply quiet_log]).
    destruct Hq as (_ & _ & _ & (Hm & Hch & _) & _).
    rewrite Hm. destruct (resultChanMap (c w) !! rid) as [ch|] eqn:El.
    + intros H. inversion H as [Hs]. apply chan_send_effect in Hs as [_ ->].
      right. exists rid, ch. cbn. rewrite Hch. auto.
    + intros H; inversion H; subst. now left.
Qed.

Lemma receiveLoop_iter_chans (w w' : World) :
  receiveLoop_iter w = Continue w' ->
  chans w' = chans w
  \/ exists (m : CastMessage) (r : Z) (ch : chan),
       carried_id m = Some r /\ resultChanMap (c w) !! r = Some ch
       /\ chans w' = <[ch := [m]]> (chans w).
Proof.
  unfold receiveLoop_iter. pose proof (read_frame_effect w) as Hr.
  destruct (read_frame w) as [payload w1|f].
  2:{ intros ->. left. apply Hr. }
  destruct Hr as ((_ & _ & _ & (Hm & Hch & _) & _) & _).
  unfold dispatch.
  destruct (proto_Unmarshal payload) as [m|].
  2:{ intros H; inversion H; subst. left.
      assert (Hq : chans (log (LogFailedUnmarshalProto payload) w1) = chans w1)
        by apply quiet_log. congruence. }
  destruct (DestinationId m) as [dst|]; [|discriminate].
  destruct (SourceId m) as [src|]; [|discriminate].
  destruct (Namespace m) as [ns|]; [|discriminate].
  destruct (PayloadUtf8 m) as [pu|] eqn:Epu; [|discriminate].
  set (w2 := log (LogRecv dst src ns pu) w1).
  assert (Hq : quiet w1 w2) by apply quiet_log.
  destruct Hq as (_ & _ & _ & (Hm2 & Hch2 & _) & _).
  destruct (json_Unmarshal_PayloadHeader _) as [h|].
  2:{ intros H; inversion H; subst. left.
      assert (Hq : chans (log LogFailedUnmarshalHeader w2) = chans w2) by apply quiet_log.
      congruence. }
  destruct (handleMessage m h w2) as [[w3|]|] eqn:E; try discriminate.
  intros H; inversion H; subst.
  apply handleMessage_chans in E as [E|(r & ch & Hr & Hl & E)].
  - left. congruence.
  - right. exists m, r, ch. rewrite E. repeat split; congruence.
Qed.

(** While the loop runs the table stays, and the buffer of a channel that
    only the key [id] leads to holds nothing but envelopes carrying [id]. *)
Lemma turns_keeps (id : Z) (ch : chan) (T : gmap Z chan) (n : nat) : forall w : World,
  (forall k : Z, T !! k = Some ch -> k = id) ->
  resultChanMap (c w) = T ->
  Forall (fun m => carried_id m = Some id) (default [] (chans w !! ch)) ->
  resultChanMap (c (turns n w)) = T
  /\ Forall (fun m => carried_id m = Some id) (default [] (chans (turns n w) !! ch)).
Proof.
  induction n as [|n IH]; intros w Hu HT Hb; [auto|].
  cbn [turns]. destruct (receiveLoop_iter w) as [w1|w1| |] eqn:E; auto.
  - pose proof (receiveLoop_iter_Continue _ _ E) as (_ & Hm & _).
    apply IH; [exact Hu|congruence|].
    apply receiveLoop_iter_chans in E as [->|(m & r & ch' & Hr & Hl & ->)]; [exact Hb|].
    destruct (decide (ch' = ch)) as [->|Hne].
    + rewrite lookup_insert_eq. cbn. constructor; [|constructor].
      rewrite HT in Hl. apply Hu in Hl. congruence.
    + now rewrite lookup_insert_ne.
  - apply receiveLoop_iter_Break in E as [(_ & _ & _ & (Hm & Hch & _) & _) _].
    rewrite Hch. split; [congruence|exact Hb].
Qed.

Context {P : Type} {HP : Payload P}.

(** X11. When nothing runs between the [Send] of a call and its registration,
    the envelope [SendAndWait] returns carries the id that [Send] assigned to
    the call's payload, however many frames the receive loop handles while
    the call waits, PINGs and replies to other requests included. *)
Theorem SendAndWait_reply_carries_call_id (n : nat) (ctx : option ctx_err)
    (prefer_ctx : bool) (payload p' : P) (src dst ns : string) (w w' : World)
    (m : CastMessage) (err : option error) :
  chans_made w ->
  SendAndWait (fun w => w) (turns n) ctx prefer_ctx payload src dst ns w
  = SwReturned (Some m, err) p' w' ->
  carried_id m = Some (int_wrap (requestID w + 1))
  /\ p' = SetRequestId payload (int_wrap (requestID w + 1)).
Proof.
  intros Hmade. unfold SendAndWait, SendAndWait_send.
  destruct (Send payload src dst ns w) as [[[err0 p1] w1]|] eqn:ES; [|discriminate].
  apply Send_effect in ES as (Hid & _ & Hp & _ & (Hm & Hch & Hn) & _).
  destruct err0 as [e0|]; [discriminate|].
  unfold SendAndWait_register.
  set (ch := next_chan w1).
  set (w2 := with_c _ _).
  assert (HT : resultChanMap (c w2) = <[requestID w1 := ch]> (resultChanMap (c w1)))
    by reflexivity.
  assert (Hu : forall k, <[requestID w1 := ch]> (resultChanMap (c w1)) !! k = Some ch
                         -> k = requestID w1).
  { intros k Hk. destruct (decide (requestID w1 = k)) as [|Hne]; [congruence|].
    rewrite lookup_insert_ne in Hk by exact Hne. rewrite Hm in Hk.
    apply Hmade in Hk. subst ch. rewrite Hn in Hk. lia. }
  assert (Hb : Forall (fun m => carried_id m = Some (requestID w1))
                      (default [] (chans w2 !! ch))).
  { subst w2. cbn. rewrite lookup_insert_eq. constructor. }
  destruct (turns_keeps _ _ _ n w2 Hu HT Hb) as [_ Hbuf].
  unfold SendAndWait_recv.
  destruct (default [] (chans (turns n w2) !! ch)) as [|result rest];
    [destruct ctx; discriminate|].
  apply Forall_cons in Hbuf as [Hres _].
  assert (Hgoal : forall wx wy : World,
            SwReturned (P := P) (Some result, None) p1 wx = SwReturned (Some m, err) p' wy ->
            carried_id m = Some (int_wrap (requestID w + 1))
            /\ p' = SetRequestId payload (int_wrap (requestID w + 1))).
  { intros wx wy H. inversion H; subst. split; congruence. }
  destruct ctx as [e|]; [destruct prefer_ctx; [discriminate|]|]; eapply Hgoal; eauto.
Qed.

(** X12. A call that returns while the counter still holds its own id leaves the
    correlation table as it found it: the slot it registered is deleted on
    the reply and on the context's error alike, and on an error of [Send]
    none was registered. The counter holds the call's id when no other
    [Send] ran and no PING was answered since. *)
Theorem SendAndWait_leaves_no_slot (n : nat) (ctx : option ctx_err)
    (prefer_ctx : bool) (payload p' : P) (src dst ns : string) (w w' : World)
    (r : sw_ret) :
  resultChanMap (c w) !! int_wrap (requestID w + 1) = None ->
  SendAndWait (fun w => w) (turns n) ctx prefer_ctx payload src dst ns w
  = SwReturned r p' w' ->
  requestID w' = int_wrap (requestID w + 1) ->
  resultChanMap (c w') = resultChanMap (c w).
Proof.
  intros Hfresh. unfold SendAndWait, SendAndWait_send.
  destruct (Send payload src dst ns w) as [[[err0 p1] w1]|] eqn:ES; [|discriminate].
  apply Send_effect in ES as (Hid & _ & _ & _ & (Hm & _ & _) & _).
  destruct err0 as [e0|]; [intros H; inversion H; subst; auto|].
  unfold SendAndWait_register.
  set (ch := next_chan w1).
  set (w2 := with_c _ _).
  assert (HT : resultChanMap (c w2) = <[requestID w1 := ch]> (resultChanMap (c w1)))
    by reflexivity.
  assert (Hturns : resultChanMap (c (turns n w2))
                   = <[requestID w1 := ch]> (resultChanMap (c w1))).
  { revert HT. generalize w2. clear w2.
    induction n as [|n IH]; intros w2 HT; [exact HT|].
    cbn [turns]. destruct (receiveLoop_iter w2) as [w3|w3| |] eqn:E; auto.
    - apply IH. apply receiveLoop_iter_Continue in E as (_ & Hm3 & _). congruence.
    - apply receiveLoop_iter_Break in E as [(_ & _ & _ & (Hm3 & _) & _) _]. congruence. }
  assert (Hdel : forall wx : World,
            resultChanMap (c wx) = <[requestID w1 := ch]> (resultChanMap (c w1)) ->
            requestID (SendAndWait_deferred wx) = int_wrap (requestID w + 1) ->
            resultChanMap (c (SendAndWait_deferred wx)) = resultChanMap (c w)).
  { intros wx Hx Hrx. unfold SendAndWait_deferred in *. cbn in *.
    rewrite Hx, Hrx, <- Hid, delete_insert_eq, Hm. apply delete_id.
    rewrite Hid. exact Hfresh. }
  unfold SendAndWait_recv.
  destruct (default [] (chans (turns n w2) !! ch)) as [|result rest].
  - destruct ctx; [|discriminate]. intros H; inversion H; subst. now apply Hdel.
  - destruct ctx as [e|]; [destruct prefer_ctx|];
      intros H; inversion H; subst; now apply Hdel.
Qed.

End Correlation.

Lemma SendAndWait_reply_carries_call_id_witness :
  match SendAndWait (L := Wire.libs) (fun w : World => w) (turns (L := Wire.libs) 2)
                    None false GetStatusHeader "sender-0" "receiver-0" ns_receiver
                    (started (ping_frame ++ reply_frame 1)) with
  | SwReturned (Some m, _) p' _ =>
      carried_id (L := Wire.libs) m = Some 1 /\ p' = SetRequestId GetStatusHeader 1
  | _ => False
  end.
Proof.
  destruct (SendAndWait (L := Wire.libs) (fun w : World => w) (turns (L := Wire.libs) 2)
                        None false GetStatusHeader "sender-0" "receiver-0" ns_receiver
                        (started (ping_frame ++ reply_frame 1)))
    as [[[m|] err] p' w'| |] eqn:E.
  - assert (Hid : int_wrap (requestID (started (ping_frame ++ reply_frame 1)) + 1) = 1)
      by (vm_compute; reflexivity).
    assert (Hmade : chans_made (started (ping_frame ++ reply_frame 1))).
    { intros k ch H. vm_compute in H. discriminate H. }
    pose proof (SendAndWait_reply_carries_call_id (L := Wire.libs) 2 None false
                  GetStatusHeader p' "sender-0" "receiver-0" ns_receiver
                  (started (ping_frame ++ reply_frame 1)) w' m err Hmade E) as H.
    rewrite Hid in H. exact H.
  - vm_compute in E. discriminate E.
  - vm_compute in E. discriminate E.
  - vm_compute in E. discriminate E.
Defined.

Lemma SendAndWait_leaves_no_slot_witness :
  end_result
    (SendAndWait (L := Wire.libs) (fun w : World => w) (turns (L := Wire.libs) 1)
                 (Some DeadlineExceeded) false GetStatusHeader
                 "sender-0" "receiver-0" ns_receiver (started (reply_frame 7)))
  = (None, Some (ErrCtx DeadlineExceeded))
  /\ resultChanMap
       (c (end_world (started (reply_frame 7))
             (SendAndWait (L := Wire.libs) (fun w : World => w) (turns (L := Wire.libs) 1)
                          (Some DeadlineExceeded) false GetStatusHeader
                          "sender-0" "receiver-0" ns_receiver (started (reply_frame 7)))))
     = resultChanMap (c (started (reply_frame 7))).
Proof.
  split; [vm_compute; reflexivity|].
  apply (SendAndWait_leaves_no_slot (L := Wire.libs) 1 (Some DeadlineExceeded) false
           GetStatusHeader
           (end_payload GetStatusHeader
              (SendAndWait (L := Wire.libs) (fun w : World => w) (turns (L := Wire.libs) 1)
                           (Some DeadlineExceeded) false GetStatusHeader
                           "sender-0" "receiver-0" ns_receiver (started (reply_frame 7))))
           "sender-0" "receiver-0" ns_receiver (started (reply_frame 7))
           (end_world (started (reply_frame 7))
              (SendAndWait (L := Wire.libs) (fun w : World => w) (turns (L := Wire.libs) 1)
                           (Some DeadlineExceeded) false GetStatusHeader
                           "sender-0" "receiver-0" ns_receiver (started (reply_frame 7))))
           (end_result
              (SendAndWait (L := Wire.libs) (fun w : World => w) (turns (L := Wire.libs) 1)
                           (Some DeadlineExceeded) false GetStatusHeader
                           "sender-0" "receiver-0" ns_receiver (started (reply_frame 7))))).
  - vm_compute. reflexivity.
  - vm_compute. reflexivity.
  - vm_compute. reflexivity.
Defined.

(** ** A frame the loop cannot print *)

(** X13. A frame whose envelope decodes but lacks one of the four strings the
    loop prints (an envelope with a binary payload has no string payload)
    makes the receive loop panic: the arguments of the [c.log] call are
    dereferenced whether or not debug logging is on. *)
Theorem frame_with_nil_field_crashes_the_loop (L : Libs) (w : World) (s : Socket)
    (payload : list byte) (rest : list rd) (m : CastMessage) :
  conn (c w) = Some s ->
  inbound s = (RByte <$> frame payload) ++ rest ->
  0 < Z.of_nat (length payload) < 2 ^ 32 ->
  proto_Unmarshal payload = Some m ->
  DestinationId m = None \/ SourceId m = None \/ Namespace m = None
  \/ PayloadUtf8 m = None ->
  receiveLoop_iter w = Panicked /\ receiveLoop w = Crashed.
Proof.
  intros Hc Hin Hlen Hun Hnil.
  assert (Hit : receiveLoop_iter w = Panicked).
  { unfold receiveLoop_iter. rewrite (read_frame_whole w s payload rest Hc Hin Hlen).
    unfold dispatch. rewrite Hun.
    destruct Hnil as [H|[H|[H|H]]]; rewrite H;
      repeat match goal with
             | |- context [match ?x with _ => _ end] => destruct x
             end; reflexivity. }
  split; [exact Hit|].
  unfold receiveLoop. cbn [receiveLoop_fuel]. now rewrite Hit.
Qed.

Lemma frame_with_nil_field_crashes_the_loop_witness :
  receiveLoop_iter (L := Wire.libs) (started (frame binary_bytes ++ ping_frame)) = Panicked
  /\ receiveLoop (L := Wire.libs) (started (frame binary_bytes ++ ping_frame)) = Crashed.
Proof.
  apply (frame_with_nil_field_crashes_the_loop Wire.libs
           (started (frame binary_bytes ++ ping_frame))
           (socket_of (started (frame binary_bytes ++ ping_frame)))
           binary_bytes (RByte <$> ping_frame) binary_envelope).
  - reflexivity.
  - vm_compute. reflexivity.
  - vm_compute. split; reflexivity.
  - vm_compute. reflexivity.
  - right. right. right. reflexivity.
Defined.

(** ** Calls that register one after the other *)

Section Registration.
Context {L : Libs}.

(** While the loop runs, the buffer of a channel that no key of the table
    leads to stays as it is. *)
Lemma turns_unreachable (ch : chan) (n : nat) : forall w : World,
  (forall k : Z, resultChanMap (c w) !! k <> Some ch) ->
  chans (turns n w) !! ch = chans w !! ch.
Proof.
  induction n as [|n IH]; intros w Hu; [reflexivity|].
  cbn [turns]. destruct (receiveLoop_iter w) as [w1|w1| |] eqn:E; auto.
  - pose proof (receiveLoop_iter_Continue _ _ E) as (_ & Hm & _).
    rewrite IH by (intros k; rewrite Hm; apply Hu).
    apply receiveLoop_iter_chans in E as [->|(m & r & ch' & _ & Hl & ->)]; [reflexivity|].
    apply lookup_insert_ne. intros ->. now apply (Hu r).
  - apply receiveLoop_iter_Break in E as [(_ & _ & _ & (_ & Hch & _) & _) _].
    now rewrite Hch.
Qed.

(** X14. When two calls register with no [Send] in between, both do so under
    the same value of the package counter: the later assignment replaces
    the earlier call's channel in the table. No key leads to the earlier
    channel any more, so whatever the receive loop handles afterwards, the
    earlier call never receives and can only end by its context. *)
Theorem later_registration_hides_the_earlier (w w1 w2 : World) (ch1 ch2 : chan) :
  chans_made w ->
  SendAndWait_register w = (ch1, w1) ->
  SendAndWait_register w1 = (ch2, w2) ->
  resultChanMap (c w2) !! requestID w = Some ch2
  /\ ch2 <> ch1
  /\ (forall k : Z, resultChanMap (c w2) !! k <> Some ch1)
  /\ forall n : nat, SendAndWait_recv ch1 (turns n w2) = None.
Proof.
  intros Hmade H1 H2.
  unfold SendAndWait_register in H1. injection H1 as <- <-.
  unfold SendAndWait_register in H2. injection H2 as <- <-.
  cbn.
  assert (Hu : forall k : Z,
            <[requestID w := S (next_chan w)]>
              (<[requestID w := next_chan w]> (resultChanMap (c w))) !! k
            <> Some (next_chan w)).
  { intros k Hk. rewrite insert_insert_eq in Hk.
    destruct (decide (requestID w = k)) as [<-|Hk'].
    - rewrite lookup_insert_eq in Hk. inversion Hk. lia.
    - rewrite lookup_insert_ne in Hk by exact Hk'. apply Hmade in Hk. lia. }
  split; [apply lookup_insert_eq|].
  split; [lia|]. split; [exact Hu|].
  intros n. unfold SendAndWait_recv. rewrite turns_unreachable by exact Hu.
  cbn. rewrite lookup_insert_ne by lia. now rewrite lookup_insert_eq.
Qed.

End Registration.

Lemma later_registration_hides_the_earlier_witness :
  resultChanMap (c two_registered) !! 2 = Some 1%nat
  /\ 1%nat <> 0%nat
  /\ (forall k : Z, resultChanMap (c two_registered) !! k <> Some 0%nat)
  /\ forall n : nat, SendAndWait_recv 0%nat (turns (L := Wire.libs) n two_registered) = None.
Proof.
  apply (later_registration_hides_the_earlier (L := Wire.libs)
           (other_Send GetStatusHeader "sender-0" "receiver-0" ns_receiver
              (other_Send GetStatusHeader "sender-0" "receiver-0" ns_receiver
                 (started (reply_frame 1 ++ reply_frame 2))))
           (snd (SendAndWait_register
                   (other_Send GetStatusHeader "sender-0" "receiver-0" ns_receiver
                      (other_Send GetStatusHeader "sender-0" "receiver-0" ns_receiver
                         (started (reply_frame 1 ++ reply_frame 2))))))
           two_registered 0%nat 1%nat).
  - intros k ch H. vm_compute in H. discriminate H.
  - reflexivity.
  - reflexivity.
Defined.

(** ** The round trip of one call *)

Section RoundTrip.
Context {L : Libs} {P : Type} {HP : Payload P}.

(** X15. A call on a connection whose socket takes the frame, when nothing else
    runs before the registration and the next frame from the peer is a
    reply carrying the call's id: [SendAndWait] writes exactly the frame of
    its envelope, returns that reply with a nil error once the loop has
    handled it, and leaves the correlation table as it found it. *)
Theorem SendAndWait_round_trip (ctx : option ctx_err) (payload : P)
    (src dst ns : string) (w : World) (s : Socket) (json data reply_data : list byte)
    (rest : list rd) (m : CastMessage) :
  conn (c w) = Some s ->
  json_Marshal (SetRequestId payload (int_wrap (requestID w + 1))) = Some json ->
  proto_Marshal (proto_SetDefaults (envelope src dst ns (string_of_list_byte json)))
  = Some data ->
  accepts s (Z.of_nat (length (frame data))) ->
  inbound s = (RByte <$> frame reply_data) ++ rest ->
  decodes reply_data m ->
  reply_for (int_wrap (requestID w + 1)) m ->
  resultChanMap (c w) !! int_wrap (requestID w + 1) = None ->
  exists w' : World,
    SendAndWait (fun w => w) (turns 1) ctx false payload src dst ns w
    = SwReturned (Some m, None) (SetRequestId payload (int_wrap (requestID w + 1))) w'
    /\ written w' = written w ++ frame data
    /\ pending_input w' = rest
    /\ resultChanMap (c w') = resultChanMap (c w)
    /\ requestID w' = int_wrap (requestID w + 1).
Proof.
  intros Hc Hj Hp Hacc Hin Hdec Hrep Hfresh.
  set (id := int_wrap (requestID w + 1)) in *.
  destruct (Send_run payload src dst ns w s Hc) as (err & w1 & HS & Hcases).
  fold id in HS, Hcases. rewrite Hj, Hp in Hcases.
  destruct Hcases as (_ & Hwr & Herr).
  specialize (Herr Hacc). subst err. specialize (Hwr eq_refl).
  pose proof (Send_effect _ _ _ _ _ _ _ _ HS) as (Hid & _ & _ & _ & (Hm & Hch & Hn) & _ & Hpi).
  fold id in Hid.
  assert (Hc1 : exists s1, conn (c w1) = Some s1
                           /\ inbound s1 = (RByte <$> frame reply_data) ++ rest).
  { unfold pending_input in Hpi. rewrite Hc, Hin in Hpi.
    destruct (conn (c w1)) as [s1|]; [eauto|].
    exfalso. unfold frame in Hpi. rewrite fmap_app, <- app_assoc in Hpi.
    pose proof (PutUint32_length (uint32 (Z.of_nat (length reply_data)))) as Hl.
    destruct (PutUint32 _); [discriminate Hl|discriminate Hpi]. }
  destruct Hc1 as (s1 & Hc1 & Hin1).
  unfold SendAndWait, SendAndWait_send. rewrite HS.
  unfold SendAndWait_register.
  set (ch := next_chan w1).
  set (w2 := with_c _ _).
  assert (Hc2 : conn (c w2) = Some s1) by exact Hc1.
  assert (Hl2 : resultChanMap (c w2) !! id = Some ch).
  { subst w2. cbn. rewrite Hid. apply lookup_insert_eq. }
  assert (Hb2 : default [] (chans w2 !! ch) = []).
  { subst w2. cbn. now rewrite lookup_insert_eq. }
  destruct (receiveLoop_iter_delivers w2 s1 reply_data rest m id ch
              Hc2 Hin1 Hdec Hrep Hl2 Hb2) as (w3 & Hit & Hch3 & Hm3 & Hr3 & Hw3 & Hp3).
  cbn [turns]. rewrite Hit.
  unfold SendAndWait_recv. rewrite Hch3, lookup_insert_eq. cbn [default from_option id].
  assert (Hend : forall wx : World,
            wx = SendAndWait_deferred
                   (set_chans (<[ch := []]> (<[ch := [m]]> (chans w2))) w3) ->
            written wx = written w ++ frame data
            /\ pending_input wx = rest
            /\ resultChanMap (c wx) = resultChanMap (c w)
            /\ requestID wx = id).
  { intros wx ->. unfold SendAndWait_deferred.
    split.
    { transitivity (written w3); [reflexivity|]. rewrite Hw3. exact Hwr. }
    split; [exact Hp3|].
    split; [|cbn; rewrite Hr3; exact Hid].
    cbn. rewrite Hr3, Hm3.
    change (requestID w2) with (requestID w1).
    change (resultChanMap (c w2)) with (<[requestID w1 := ch]> (resultChanMap (c w1))).
    rewrite delete_insert_eq, Hm. apply delete_id. rewrite Hid. exact Hfresh. }
  destruct ctx; eexists; (split; [reflexivity|]); now apply Hend.
Qed.

End RoundTrip.

Lemma SendAndWait_round_trip_witness :
  exists w' : World,
    SendAndWait (L := Wire.libs) (fun w => w) (turns (L := Wire.libs) 1) None false
                GetStatusHeader "sender-0" "receiver-0" ns_receiver
                (started (reply_frame 1 ++ ping_frame))
    = SwReturned (Some (reply 1), None)
                 (SetRequestId GetStatusHeader
                    (int_wrap (requestID (started (reply_frame 1 ++ ping_frame)) + 1))) w'
    /\ written w'
       = written (started (reply_frame 1 ++ ping_frame))
         ++ frame (wire_envelope "sender-0" "receiver-0" ns_receiver
                     (mkPayloadHeader "GET_STATUS" 1))
    /\ pending_input w' = RByte <$> ping_frame
    /\ resultChanMap (c w') = resultChanMap (c (started (reply_frame 1 ++ ping_frame)))
    /\ requestID w' = int_wrap (requestID (started (reply_frame 1 ++ ping_frame)) + 1).
Proof.
  apply (SendAndWait_round_trip (L := Wire.libs) None GetStatusHeader
           "sender-0" "receiver-0" ns_receiver (started (reply_frame 1 ++ ping_frame))
           (socket_of (started (reply_frame 1 ++ ping_frame)))
           (wire_json (mkPayloadHeader "GET_STATUS" 1))
           (wire_envelope "sender-0" "receiver-0" ns_receiver
              (mkPayloadHeader "GET_STATUS" 1))
           (reply_bytes 1) (RByte <$> ping_frame) (reply 1)).
  - reflexivity.
  - vm_compute. reflexivity.
  - vm_compute. reflexivity.
  - exact I.
  - vm_compute. reflexivity.
  - apply reply_1_decodes.
  - apply reply_1_decodes.
  - vm_compute. reflexivity.
Defined.
